(** * LegalAnalyzer_AI: document status contract, document queue and API client

    A shallow embedding of the TypeScript front end of the repository
    (types/document.ts, lib/api.ts, lib/api/documents.ts,
    components/cases/DocumentQueue.tsx) together with the parts of the
    document pipeline that the specification describes, and the properties
    the specification states about them.  The later sections cover the rest
    of the front end's logic: the case API and case list, the case form, the
    upload state, the class-name builder, the route guards and the sign-in
    functions. *)

From Stdlib Require Import ZArith List String Ascii Bool Lia QArith DecimalString.
Import ListNotations.

Local Open Scope string_scope.
Local Open Scope list_scope.
Local Open Scope Z_scope.

(** ** JavaScript conventions shared by the front-end code *)

Module Js.

(** Truthiness of a [string]: only the empty string is falsy. *)
Definition truthy_string (s : string) : bool :=
  match s with
  | EmptyString => false
  | String _ _ => true
  end.

(** Truthiness of a [string | null] (or [string | undefined]) value. *)
Definition truthy (v : option string) : bool :=
  match v with
  | None => false
  | Some s => truthy_string s
  end.

(** Template-literal rendering of an integral [number]. *)
Definition show_int (n : Z) : string :=
  NilEmpty.string_of_int (Z.to_int n).

Lemma truthy_string_true (s : string) : truthy_string s = true <-> s <> "".
Proof.
  destruct s; simpl; split; intro H; try discriminate; try reflexivity.
  exfalso; apply H; reflexivity.
Qed.

Lemma truthy_true (v : option string) :
  truthy v = true <-> exists s, v = Some s /\ s <> "".
Proof.
  destruct v as [s|]; simpl.
  - rewrite truthy_string_true. split.
    + intro H; exists s; split; [reflexivity | exact H].
    + intros [s' [E H]]. inversion E; subst; exact H.
  - split; [discriminate | intros [s [E _]]; discriminate].
Qed.

End Js.

(** ** Text helpers: characters of a string, [split], query strings *)

Module Text.

Fixpoint all_chars (p : ascii -> bool) (s : string) : bool :=
  match s with
  | EmptyString => true
  | String c r => p c && all_chars p r
  end.

(** [lacks c s]: the character [c] does not occur in [s]. *)
Definition lacks (c : ascii) (s : string) : bool :=
  all_chars (fun x => negb (Ascii.eqb x c)) s.

(** [s.split(c)] for a one-character separator. *)
Fixpoint split_on (c : ascii) (s : string) : list string :=
  match s with
  | EmptyString => [EmptyString]
  | String x r =>
      if Ascii.eqb x c then EmptyString :: split_on c r
      else match split_on c r with
           | h :: t => String x h :: t
           | [] => [String x EmptyString]
           end
  end.

(** The text before the first [c] and the text after it ([None] when [c]
    does not occur). *)
Fixpoint cut_at (c : ascii) (s : string) : string * option string :=
  match s with
  | EmptyString => (EmptyString, None)
  | String x r =>
      if Ascii.eqb x c then (EmptyString, Some r)
      else let (a, b) := cut_at c r in (String x a, b)
  end.

(** A [key=value] item of a query string; an item without [=] has the empty
    value. *)
Definition key_value (item : string) : string * string :=
  match cut_at "=" item with
  | (k, Some v) => (k, v)
  | (k, None) => (k, EmptyString)
  end.

(** The parameters of an endpoint: the items after the first [?], separated
    by [&], in order. *)
Definition query_params (endpoint : string) : list (string * string) :=
  match cut_at "?" endpoint with
  | (_, Some q) => map key_value (split_on "&" q)
  | (_, None) => []
  end.

Definition is_digit (c : ascii) : bool :=
  (48 <=? nat_of_ascii c)%nat && (nat_of_ascii c <=? 57)%nat.

Definition is_numeral_char (c : ascii) : bool :=
  is_digit c || Ascii.eqb c "-".

Lemma all_chars_weaken (p q : ascii -> bool) (s : string) :
  (forall c, p c = true -> q c = true) ->
  all_chars p s = true -> all_chars q s = true.
Proof.
  intro W. induction s as [| c r IH]; simpl; [reflexivity |].
  intro H. apply andb_true_iff in H. destruct H as [C R].
  rewrite (W c C), (IH R). reflexivity.
Qed.

Lemma all_chars_app (p : ascii -> bool) (a b : string) :
  all_chars p (a ++ b)%string = all_chars p a && all_chars p b.
Proof.
  induction a as [| c r IH]; simpl; [reflexivity |].
  rewrite IH. apply andb_assoc.
Qed.

Lemma string_of_uint_digits (d : Decimal.uint) :
  all_chars is_digit (NilEmpty.string_of_uint d) = true.
Proof.
  induction d; simpl; try reflexivity; exact IHd.
Qed.

Lemma show_int_numeral (n : Z) :
  all_chars is_numeral_char (Js.show_int n) = true.
Proof.
  unfold Js.show_int. destruct (Z.to_int n) as [d | d]; simpl.
  - apply all_chars_weaken with (p := is_digit); [| apply string_of_uint_digits].
    intros c H. unfold is_numeral_char. rewrite H. reflexivity.
  - apply all_chars_weaken with (p := is_digit); [| apply string_of_uint_digits].
    intros c H. unfold is_numeral_char. rewrite H. reflexivity.
Qed.

Lemma numeral_lacks (c : ascii) (s : string) :
  is_numeral_char c = false ->
  all_chars is_numeral_char s = true -> lacks c s = true.
Proof.
  intros N. unfold lacks. apply all_chars_weaken.
  intros x H. apply negb_true_iff. destruct (Ascii.eqb x c) eqn:E; [| reflexivity].
  apply Ascii.eqb_eq in E. subst x. congruence.
Qed.

Lemma show_int_lacks (c : ascii) (n : Z) :
  is_numeral_char c = false -> lacks c (Js.show_int n) = true.
Proof.
  intro N. apply numeral_lacks; [exact N | apply show_int_numeral].
Qed.

Lemma cut_at_app (c : ascii) (a b : string) :
  lacks c a = true -> cut_at c (a ++ String c b)%string = (a, Some b).
Proof.
  induction a as [| x r IH]; simpl.
  - intros _. rewrite Ascii.eqb_refl. reflexivity.
  - intro H. apply andb_true_iff in H. destruct H as [X R].
    apply negb_true_iff in X. rewrite X, (IH R). reflexivity.
Qed.

Lemma cut_at_lacks (c : ascii) (a : string) :
  lacks c a = true -> cut_at c a = (a, None).
Proof.
  induction a as [| x r IH]; simpl; [reflexivity |].
  intro H. apply andb_true_iff in H. destruct H as [X R].
  apply negb_true_iff in X. rewrite X, (IH R). reflexivity.
Qed.

Lemma split_on_nonempty (c : ascii) (s : string) : split_on c s <> [].
Proof.
  destruct s as [| x r]; simpl; [discriminate |].
  destruct (Ascii.eqb x c); [discriminate |].
  destruct (split_on c r); discriminate.
Qed.

Lemma split_on_app (c : ascii) (a b : string) :
  lacks c a = true -> split_on c (a ++ String c b)%string = a :: split_on c b.
Proof.
  induction a as [| x r IH]; simpl.
  - intros _. rewrite Ascii.eqb_refl. reflexivity.
  - intro H. apply andb_true_iff in H. destruct H as [X R].
    apply negb_true_iff in X. rewrite X, (IH R). reflexivity.
Qed.

Lemma split_on_lacks (c : ascii) (a : string) :
  lacks c a = true -> split_on c a = [a].
Proof.
  induction a as [| x r IH]; simpl; [reflexivity |].
  intro H. apply andb_true_iff in H. destruct H as [X R].
  apply negb_true_iff in X. rewrite X, (IH R). reflexivity.
Qed.

(** The first item of a split text that starts with [a] extends [a]. *)
Lemma split_on_head (c : ascii) (a b : string) :
  lacks c a = true ->
  exists h t, split_on c (a ++ b)%string = (a ++ h)%string :: t.
Proof.
  induction a as [| x r IH]; simpl.
  - intros _. destruct (split_on c b) as [| h t] eqn:E.
    + exfalso. exact (split_on_nonempty c b E).
    + exists h, t. reflexivity.
  - intro H. apply andb_true_iff in H. destruct H as [X R].
    apply negb_true_iff in X. rewrite X.
    destruct (IH R) as [h [t E]]. rewrite E. exists h, t. reflexivity.
Qed.

Lemma append_assoc (a b c : string) :
  ((a ++ b) ++ c = a ++ (b ++ c))%string.
Proof.
  induction a as [| x r IH]; simpl; [reflexivity |]. rewrite IH. reflexivity.
Qed.

Lemma append_empty_r (a : string) : (a ++ "" = a)%string.
Proof.
  induction a as [| x r IH]; simpl; [reflexivity |]. rewrite IH. reflexivity.
Qed.

Lemma key_value_app (k v : string) :
  lacks "=" k = true -> key_value (k ++ String "=" v)%string = (k, v).
Proof.
  intro H. unfold key_value. rewrite (cut_at_app _ _ _ H). reflexivity.
Qed.

End Text.

(** ** types/document.ts *)

Module DocumentTypes.

Inductive DocumentStatus : Type :=
| UPLOADED
| DETECTING_TYPE
| EXTRACTING_BLOCKS
| CLASSIFYING
| ANALYZING_CONTENT
| FILTERED_OUT
| CHUNKING
| SUMMARIZING
| COMPLETED
| FAILED.

(** The string each enum member stands for at run time and on the wire. *)
Definition status_value (s : DocumentStatus) : string :=
  match s with
  | UPLOADED => "uploaded"
  | DETECTING_TYPE => "detecting_type"
  | EXTRACTING_BLOCKS => "extracting_blocks"
  | CLASSIFYING => "classifying"
  | ANALYZING_CONTENT => "analyzing_content"
  | FILTERED_OUT => "filtered_out"
  | CHUNKING => "chunking"
  | SUMMARIZING => "summarizing"
  | COMPLETED => "completed"
  | FAILED => "failed"
  end.

(** Members in declaration order. *)
Definition all_statuses : list DocumentStatus :=
  [UPLOADED; DETECTING_TYPE; EXTRACTING_BLOCKS; CLASSIFYING; ANALYZING_CONTENT;
   FILTERED_OUT; CHUNKING; SUMMARIZING; COMPLETED; FAILED].

(** Strict equality [===] of two enum values is equality of their strings. *)
Definition status_eqb (a b : DocumentStatus) : bool :=
  String.eqb (status_value a) (status_value b).

Lemma status_eqb_eq (a b : DocumentStatus) : status_eqb a b = true <-> a = b.
Proof.
  split.
  - destruct a, b; intro H; try reflexivity; vm_compute in H; discriminate.
  - intros ->. unfold status_eqb. apply String.eqb_refl.
Qed.

Lemma status_eqb_neq (a b : DocumentStatus) : status_eqb a b = false <-> a <> b.
Proof.
  rewrite <- status_eqb_eq. destruct (status_eqb a b); split; congruence.
Qed.

Record Document : Type := {
  id : Z;
  case_id : Z;
  filename : string;
  file_type : string;
  file_size : Z;
  minio_bucket : string;
  minio_key : string;
  status : DocumentStatus;
  processing_error : option string;
  classification : option string;
  content_category : option string;
  filter_confidence : option Q;
  filter_reasoning : option string;
  has_summary : bool;
  summarized_at : option string;
  created_at : string;
  updated_at : string
}.

Record DocumentListResponse : Type := {
  total : Z;
  documents : list Document
}.

(** The [labels] record of [getStatusLabel]. *)
Definition labels (s : DocumentStatus) : string :=
  match s with
  | UPLOADED => "Uploaded"
  | DETECTING_TYPE => "Detecting Type"
  | EXTRACTING_BLOCKS => "Extracting Content"
  | CLASSIFYING => "Classifying"
  | ANALYZING_CONTENT => "Analyzing"
  | FILTERED_OUT => "Filtered Out"
  | CHUNKING => "Chunking"
  | SUMMARIZING => "Summarizing"
  | COMPLETED => "Completed"
  | FAILED => "Failed"
  end.

(** [labels[status] || status] *)
Definition getStatusLabel (s : DocumentStatus) : string :=
  if Js.truthy_string (labels s) then labels s else status_value s.

Inductive StatusColor : Type :=
| success | warning | error | info | neutral.

(** [[...].includes(status)] *)
Definition includes (l : list DocumentStatus) (s : DocumentStatus) : bool :=
  existsb (fun x => status_eqb x s) l.

Definition getStatusColor (s : DocumentStatus) : StatusColor :=
  if status_eqb s COMPLETED then success
  else if status_eqb s FAILED then error
  else if status_eqb s FILTERED_OUT then neutral
  else if includes
            [EXTRACTING_BLOCKS; CLASSIFYING; ANALYZING_CONTENT; CHUNKING; SUMMARIZING]
            s
       then info
  else warning.

End DocumentTypes.

(** ** components/cases/DocumentQueue.tsx *)

Module DocumentQueue.
Import DocumentTypes.

(** The callback of [documents.some(...)] in the auto-refresh effect. *)
Definition isProcessing (doc : Document) : bool :=
  negb (status_eqb (status doc) COMPLETED)
  && negb (status_eqb (status doc) FAILED)
  && negb (status_eqb (status doc) FILTERED_OUT).

Definition hasProcessing (docs : list Document) : bool :=
  existsb isProcessing docs.

(** The auto-refresh effect: [None] when the effect returns before
    [setInterval], otherwise the period of the installed interval, in
    milliseconds. *)
Definition autoRefreshInterval (docs : list Document) : option Z :=
  if negb (hasProcessing docs) then None else Some 5000.

(** [x.toFixed(1)] for the quotient [num / den] with [0 <= num] and [den] a
    power of two: the quotient is then an exact double for every safe integer
    [num], and [toFixed] picks the decimal with one fractional digit nearest to
    it, the larger one on a tie. *)
Definition toFixed1 (num den : Z) : string :=
  let n := (20 * num + den) / (2 * den) in
  (Js.show_int (n / 10) ++ "." ++ Js.show_int (n mod 10))%string.

Definition formatFileSize (bytes : Z) : string :=
  if bytes <? 1024 then (Js.show_int bytes ++ " B")%string
  else if bytes <? 1024 * 1024 then (toFixed1 bytes 1024 ++ " KB")%string
  else (toFixed1 bytes (1024 * 1024) ++ " MB")%string.

(** What one row of the list shows, top to bottom and left to right.  The view
    upper-cases [file_type] and formats [created_at] by locale; both are kept
    here as the strings they are computed from. *)
Inductive RowElement : Type :=
| FileInfo (name size type : string)
| ClassificationBadge (label : string)
| CategoryBadge (label : string)
| ErrorMessage (text : string)
| FilterReasoning (text : string)
| UploadedAt (created : string)
| StatusBadge (color : StatusColor) (label : string)
| ProcessingIndicator
| SummaryIndicator.

(** JSX [{v && rest}] for a [string | null] value [v]; [rest] may use [v]. *)
Definition whenTruthy (v : option string) (rest : string -> list RowElement) : list RowElement :=
  match v with
  | Some s => if Js.truthy_string s then rest s else []
  | None => []
  end.

(** JSX [{cond && <el/>}] for a boolean condition. *)
Definition when (cond : bool) (els : list RowElement) : list RowElement :=
  if cond then els else [].

Definition renderRow (doc : Document) : list RowElement :=
  let statusColor := getStatusColor (status doc) in
  [FileInfo (filename doc) (formatFileSize (file_size doc)) (file_type doc)]
  ++ when (Js.truthy (classification doc) || Js.truthy (content_category doc))
       (whenTruthy (classification doc) (fun c => [ClassificationBadge c])
        ++ whenTruthy (content_category doc) (fun c => [CategoryBadge c]))
  ++ whenTruthy (processing_error doc) (fun e => [ErrorMessage e])
  ++ whenTruthy (filter_reasoning doc)
       (fun r => when (status_eqb (status doc) FILTERED_OUT) [FilterReasoning r])
  ++ [UploadedAt (created_at doc)]
  ++ [StatusBadge statusColor (getStatusLabel (status doc))]
  ++ when (negb (status_eqb (status doc) COMPLETED)
           && negb (status_eqb (status doc) FAILED)
           && negb (status_eqb (status doc) FILTERED_OUT))
       [ProcessingIndicator]
  ++ when (has_summary doc) [SummaryIndicator].

(** Component state and the list part of the view. *)
Record QueueState : Type := {
  st_documents : list Document;
  isLoading : bool;
  st_error : option string;
  filterStatus : string
}.


(** A document as the list endpoint may return it, used in the examples. *)
Definition sampleDocument (st : DocumentStatus) (err reasoning : option string) : Document :=
  {| id := 7; case_id := 1; filename := "lease.txt"; file_type := "txt";
     file_size := 2048; minio_bucket := "documents"; minio_key := "1/7/lease.txt";
     status := st; processing_error := err; classification := None;
     content_category := None; filter_confidence := None;
     filter_reasoning := reasoning; has_summary := false; summarized_at := None;
     created_at := "2025-01-01T00:00:00Z"; updated_at := "2025-01-01T00:00:00Z" |}.

Lemma in_whenTruthy (v : option string) (rest : string -> list RowElement) (x : RowElement) :
  In x (whenTruthy v rest) <-> exists s, v = Some s /\ s <> ""%string /\ In x (rest s).
Proof.
  unfold whenTruthy. destruct v as [s|].
  - destruct (Js.truthy_string s) eqn:T.
    + apply Js.truthy_string_true in T. split.
      * intro H. exists s. auto.
      * intros [s' [E [_ H]]]. inversion E; subst. exact H.
    + split; [intros [] |].
      intros [s' [E [N _]]]. inversion E; subst.
      apply Js.truthy_string_true in N. congruence.
  - split; [intros [] | intros [s [E _]]; discriminate].
Qed.

Lemma in_when (cond : bool) (els : list RowElement) (x : RowElement) :
  In x (when cond els) <-> cond = true /\ In x els.
Proof.
  unfold when. destruct cond; simpl; split; try tauto.
  intros [E _]; discriminate.
Qed.

Lemma isProcessing_spec (doc : Document) :
  isProcessing doc = true <->
  status doc <> COMPLETED /\ status doc <> FAILED /\ status doc <> FILTERED_OUT.
Proof.
  unfold isProcessing.
  rewrite !andb_true_iff, !negb_true_iff, !status_eqb_neq. tauto.
Qed.

Ltac break_row :=
  repeat match goal with
  | X : False |- _ => contradiction
  | X : _ \/ _ |- _ => destruct X as [X | X]
  | X : _ /\ _ |- _ => destruct X as [? X]
  | X : exists _, _ |- _ => destruct X as [? X]
  | X : In _ (_ ++ _) |- _ => apply in_app_iff in X
  | X : In _ (whenTruthy _ _) |- _ => apply in_whenTruthy in X
  | X : In _ (when _ _) |- _ => apply in_when in X
  | X : In _ (_ :: _) |- _ => simpl in X
  | X : In _ [] |- _ => simpl in X
  end.

(** The elements of a row, one disjunct per place of the view. *)
Lemma in_renderRow (doc : Document) (x : RowElement) :
  In x (renderRow doc) <->
  x = FileInfo (filename doc) (formatFileSize (file_size doc)) (file_type doc)
  \/ (exists c, classification doc = Some c /\ c <> ""%string /\ x = ClassificationBadge c)
  \/ (exists c, content_category doc = Some c /\ c <> ""%string /\ x = CategoryBadge c)
  \/ (exists e, processing_error doc = Some e /\ e <> ""%string /\ x = ErrorMessage e)
  \/ (exists r, filter_reasoning doc = Some r /\ r <> ""%string
                /\ status doc = FILTERED_OUT /\ x = FilterReasoning r)
  \/ x = UploadedAt (created_at doc)
  \/ x = StatusBadge (getStatusColor (status doc)) (getStatusLabel (status doc))
  \/ (isProcessing doc = true /\ x = ProcessingIndicator)
  \/ (has_summary doc = true /\ x = SummaryIndicator).
Proof.
  split.
  - intro H. unfold renderRow in H. break_row; subst.
    + left; reflexivity.
    + right; left. eauto.
    + right; right; left. eauto.
    + do 3 right; left. eauto.
    + do 4 right; left. eexists. repeat split; eauto.
      apply status_eqb_eq; assumption.
    + do 5 right; left; reflexivity.
    + do 6 right; left; reflexivity.
    + do 7 right; left. split; [assumption | reflexivity].
    + do 8 right. split; [assumption | reflexivity].
  - unfold renderRow. repeat rewrite in_app_iff.
    intros [H | [H | [H | [H | [H | [H | [H | [H | H]]]]]]]].
    + subst. left. left. reflexivity.
    + destruct H as [c [E [N ->]]]. right. left. apply in_when. split.
      * rewrite E. simpl. apply Js.truthy_string_true in N. rewrite N. reflexivity.
      * apply in_app_iff. left. apply in_whenTruthy. exists c. simpl. auto.
    + destruct H as [c [E [N ->]]]. right. left. apply in_when. split.
      * rewrite E. simpl. apply Js.truthy_string_true in N. rewrite N.
        apply orb_true_r.
      * apply in_app_iff. right. apply in_whenTruthy. exists c. simpl. auto.
    + destruct H as [e [E [N ->]]]. do 2 right. left.
      apply in_whenTruthy. exists e. simpl. auto.
    + destruct H as [r [E [N [S ->]]]]. do 3 right. left.
      apply in_whenTruthy. exists r. repeat split; try assumption.
      apply in_when. split; [apply status_eqb_eq; assumption | left; reflexivity].
    + subst. do 4 right. left. left. reflexivity.
    + subst. do 5 right. left. left. reflexivity.
    + destruct H as [P ->]. do 6 right. left. apply in_when.
      split; [exact P | left; reflexivity].
    + destruct H as [P ->]. do 7 right. apply in_when.
      split; [exact P | left; reflexivity].
Qed.

(** The unit a formatted size ends with: the text after its last space
    (the whole text when it has none). *)
Fixpoint unit_from (cand s : string) : string :=
  match s with
  | EmptyString => cand
  | String c r => if Ascii.eqb c " " then unit_from r r else unit_from cand r
  end.

Definition unit_of (s : string) : string := unit_from s s.

Fixpoint no_space (s : string) : bool :=
  match s with
  | EmptyString => true
  | String c r => negb (Ascii.eqb c " ") && no_space r
  end.

Lemma unit_from_no_space (cand s : string) :
  no_space s = true -> unit_from cand s = cand.
Proof.
  induction s as [| c r IH]; simpl; [reflexivity |].
  intro H. apply andb_true_iff in H. destruct H as [C R].
  apply negb_true_iff in C. rewrite C. apply IH. exact R.
Qed.

Lemma unit_from_append (num u cand : string) :
  no_space u = true -> unit_from cand (num ++ " " ++ u)%string = u.
Proof.
  intro U. revert cand. induction num as [| c r IH]; intro cand; simpl.
  - apply unit_from_no_space. exact U.
  - destruct (Ascii.eqb c " "); apply IH.
Qed.

Lemma unit_of_append (num u : string) :
  no_space u = true -> unit_of (num ++ " " ++ u)%string = u.
Proof.
  intro U. unfold unit_of. apply unit_from_append. exact U.
Qed.

Lemma formatFileSize_cases (bytes : Z) :
  (bytes < 1024 /\ formatFileSize bytes = (Js.show_int bytes ++ " " ++ "B")%string)
  \/ (1024 <= bytes < 1048576
      /\ formatFileSize bytes = (toFixed1 bytes 1024 ++ " " ++ "KB")%string)
  \/ (1048576 <= bytes
      /\ formatFileSize bytes = (toFixed1 bytes (1024 * 1024) ++ " " ++ "MB")%string).
Proof.
  unfold formatFileSize.
  destruct (bytes <? 1024) eqn:E1.
  - apply Z.ltb_lt in E1. left. split; [exact E1 | reflexivity].
  - apply Z.ltb_ge in E1. destruct (bytes <? 1024 * 1024) eqn:E2.
    + apply Z.ltb_lt in E2. right; left. split; [lia | reflexivity].
    + apply Z.ltb_ge in E2. right; right. split; [lia | reflexivity].
Qed.

End DocumentQueue.

(** ** The status contract and what the queue shows for a document *)

Section StatusContract.
Import DocumentTypes DocumentQueue.

(** The status values of the stable contract, in the order the contract
    lists them. *)
Definition contract_status_values : list string :=
  ["uploaded"; "detecting_type"; "extracting_blocks"; "classifying";
   "analyzing_content"; "filtered_out"; "chunking"; "summarizing";
   "completed"; "failed"].

(** C1: the values of [DocumentStatus] are exactly the ten contract values:
    every member's string is one of them, every one of them is the string of a
    member, and distinct members have distinct strings. *)
Theorem status_values_exact :
  (forall s : DocumentStatus, In (status_value s) contract_status_values)
  /\ (forall v : string, In v contract_status_values ->
        exists s : DocumentStatus, status_value s = v)
  /\ (forall a b : DocumentStatus, status_value a = status_value b -> a = b)
  /\ map status_value all_statuses = contract_status_values.
Proof.
  repeat split.
  - intros s. destruct s; simpl; tauto.
  - intros v H.
    change contract_status_values with (map status_value all_statuses) in H.
    apply in_map_iff in H. destruct H as [s [E _]]. exists s. exact E.
  - intros a b H. apply status_eqb_eq. unfold status_eqb.
    rewrite H. apply String.eqb_refl.
Qed.

(** C4: the still-processing predicate of the queue holds exactly for the
    statuses other than completed, failed and filtered_out; it is the
    condition of the per-row processing indicator, and the 5-second refresh
    is installed exactly when some listed document satisfies it. *)
Theorem still_processing_iff_not_absorbing (docs : list Document) (doc : Document) :
  (isProcessing doc = true <->
     status doc <> COMPLETED /\ status doc <> FAILED /\ status doc <> FILTERED_OUT)
  /\ (In ProcessingIndicator (renderRow doc) <-> isProcessing doc = true)
  /\ (autoRefreshInterval docs = Some 5000 <->
        exists d, In d docs /\ isProcessing d = true)
  /\ (autoRefreshInterval docs = None <->
        forall d, In d docs -> isProcessing d = false).
Proof.
  split; [apply isProcessing_spec |].
  split.
  - rewrite in_renderRow. split.
    + intros H. decompose [or ex and] H; clear H; try discriminate. assumption.
    + intros H. do 7 right. left. split; [exact H | reflexivity].
  - unfold autoRefreshInterval, hasProcessing.
    destruct (existsb isProcessing docs) eqn:E; simpl.
    + apply existsb_exists in E. split.
      * split; [intros _; exact E | reflexivity].
      * split; [discriminate |].
        intros H. destruct E as [d [I P]]. rewrite (H d I) in P. discriminate.
    + split.
      * split; [discriminate |].
        intros H. apply existsb_exists in H. congruence.
      * split; [| reflexivity].
        intros _ d I. destruct (isProcessing d) eqn:P; [| reflexivity].
        assert (existsb isProcessing docs = true) as X
          by (apply existsb_exists; exists d; auto).
        congruence.
Qed.

Lemma getStatusColor_error_iff (s : DocumentStatus) :
  getStatusColor s = error <-> s = FAILED.
Proof.
  split.
  - destruct s; intro H; try reflexivity; vm_compute in H; discriminate H.
  - intros ->. reflexivity.
Qed.

(** C6, as stated, fails: a failed document whose [processing_error] is the
    empty string has a non-null error, and the row shows no error block. *)
Lemma empty_error_not_rendered :
  ~ (forall doc : Document,
       processing_error doc <> None ->
       exists e, processing_error doc = Some e /\ In (ErrorMessage e) (renderRow doc)).
Proof.
  intro H.
  destruct (H (sampleDocument FAILED (Some ""%string) None)) as [e [E I]].
  - simpl. discriminate.
  - simpl in E. inversion E; subst e. vm_compute in I.
    repeat (destruct I as [I | I]; [discriminate I |]). exact I.
Qed.

(** C6, amended: the failed status has the non-empty label "Failed", its
    colour is [error] and no other status has that colour, and a row shows an
    error text exactly when it is the document's non-null, non-empty
    [processing_error]. *)
Theorem failure_is_surfaced (doc : Document) (e : string) :
  getStatusLabel FAILED = "Failed"%string
  /\ getStatusLabel FAILED <> ""%string
  /\ (forall s : DocumentStatus, getStatusColor s = error <-> s = FAILED)
  /\ (In (ErrorMessage e) (renderRow doc) <->
        processing_error doc = Some e /\ e <> ""%string).
Proof.
  split; [reflexivity |].
  split; [discriminate |].
  split; [exact getStatusColor_error_iff |].
  rewrite in_renderRow. split.
  - intros H. decompose [or ex and] H; clear H; try discriminate.
    match goal with X : ErrorMessage _ = ErrorMessage _ |- _ => inversion X; subst end.
    auto.
  - intros [E N]. do 3 right. left. exists e. auto.
Qed.

(** C7, as stated, fails: a filtered-out document whose [filter_reasoning]
    is the empty string has a non-null reasoning, and the row shows no
    reasoning block. *)
Lemma empty_reasoning_not_rendered :
  ~ (forall doc : Document,
       (exists r, In (FilterReasoning r) (renderRow doc)) <->
       status doc = FILTERED_OUT /\ filter_reasoning doc <> None).
Proof.
  intro H.
  destruct (H (sampleDocument FILTERED_OUT None (Some ""%string))) as [_ H2].
  destruct H2 as [r I].
  - split; [reflexivity | simpl; discriminate].
  - vm_compute in I.
    repeat (destruct I as [I | I]; [discriminate I |]). exact I.
Qed.

(** C7, amended: filtered_out has the colour [neutral], which is not
    [error]; a row shows a filter reasoning exactly when the status is
    filtered_out and the text is the document's non-null, non-empty
    [filter_reasoning]; and whether it is shown does not depend on
    [processing_error], whose block is a separate element. *)
Theorem filtered_out_is_not_an_error (doc : Document) (r : string) :
  getStatusColor FILTERED_OUT = neutral
  /\ getStatusColor FILTERED_OUT <> error
  /\ (In (FilterReasoning r) (renderRow doc) <->
        status doc = FILTERED_OUT /\ filter_reasoning doc = Some r /\ r <> ""%string)
  /\ (forall e : string, FilterReasoning r <> ErrorMessage e).
Proof.
  split; [reflexivity |].
  split; [discriminate |].
  split; [| discriminate].
  rewrite in_renderRow. split.
  - intros H. decompose [or ex and] H; clear H; try discriminate.
    match goal with X : FilterReasoning _ = FilterReasoning _ |- _ => inversion X; subst end.
    auto.
  - intros [S [E N]]. do 4 right. left. exists r. auto.
Qed.

(** C10: the unit of a formatted size is "B" exactly below 1024 bytes, "KB"
    exactly from 1024 up to but excluding 1048576, and "MB" exactly from
    1048576 on, so the three ranges are contiguous and cover every count; the
    statement needs no sign condition on the count. *)
Theorem formatFileSize_unit_partition (bytes : Z) :
  (unit_of (formatFileSize bytes) = "B"%string <-> bytes < 1024)
  /\ (unit_of (formatFileSize bytes) = "KB"%string <-> 1024 <= bytes < 1048576)
  /\ (unit_of (formatFileSize bytes) = "MB"%string <-> 1048576 <= bytes).
Proof.
  destruct (formatFileSize_cases bytes) as [[R E] | [[R E] | [R E]]];
    rewrite E, unit_of_append by reflexivity;
    (split; [| split]);
    (split; intro H; first [reflexivity | discriminate H | lia | exfalso; lia]).
Qed.

End StatusContract.

(** ** lib/api.ts *)

Module Api.

#[local] Set Warnings "-register-all".

(** Parsed JSON.  Numbers are integral in this model; an object is the list
    of its members, each key once. *)
Inductive Json : Type :=
| JNull
| JBool (b : bool)
| JNum (n : Z)
| JStr (s : string)
| JArr (items : list Json)
| JObj (members : list (string * Json)).

(** What [fetch] hands to [handleResponse].  [body] is what
    [response.json()] resolves to, [None] when it rejects because the body
    is not JSON. *)
Record Response : Type := {
  ok : bool;
  status : Z;
  statusText : string;
  body : option Json
}.

Record ApiError : Type := {
  name : string;
  message : string;
  err_status : Z;
  data : option Json
}.

(** How an awaited call ends: with a value, with a thrown [ApiError], with
    the [SyntaxError] of [response.json()], or with the [TypeError] of a
    conversion to string that fails. *)
Inductive Outcome (A : Type) : Type :=
| Resolved (value : A)
| ThrownApiError (e : ApiError)
| ThrownSyntaxError
| ThrownTypeError.

Arguments Resolved {A} value.
Arguments ThrownApiError {A} e.
Arguments ThrownSyntaxError {A}.
Arguments ThrownTypeError {A}.

Fixpoint lookup (key : string) (members : list (string * Json)) : option Json :=
  match members with
  | [] => None
  | (k, v) :: rest => if String.eqb k key then Some v else lookup key rest
  end.

(** [value.key] for a parsed value other than [null]: [None] is
    [undefined]. *)
Definition property (value : Json) (key : string) : option Json :=
  match value with
  | JObj members => lookup key members
  | _ => None
  end.

Definition truthy (v : Json) : bool :=
  match v with
  | JNull => false
  | JBool b => b
  | JNum n => negb (n =? 0)
  | JStr s => Js.truthy_string s
  | JArr _ => true
  | JObj _ => true
  end.

(** [a || b] where [a] may be [undefined]. *)
Definition or_else (a : option Json) (b : Json) : Json :=
  match a with
  | Some v => if truthy v then v else b
  | None => b
  end.

Fixpoint join (sep : string) (parts : list string) : string :=
  match parts with
  | [] => EmptyString
  | [p] => p
  | p :: rest => (p ++ sep ++ join sep rest)%string
  end.

(** All the values of a list, when none is missing. *)
Fixpoint collect {A : Type} (l : list (option A)) : option (list A) :=
  match l with
  | [] => Some []
  | None :: _ => None
  | Some x :: rest =>
      match collect rest with
      | Some xs => Some (x :: xs)
      | None => None
      end
  end.

(** [String(v)], as the [Error] constructor applies it to its message;
    [None] when the conversion throws a [TypeError].  An object converts
    through the inherited [toString] to "[object Object]", unless it has a
    [toString] member of its own: a parsed member is never callable, and the
    inherited [valueOf] returns the object, so the conversion throws.  An
    array joins the conversions of its elements, [null] elements giving the
    empty text. *)
Fixpoint to_string (v : Json) : option string :=
  match v with
  | JNull => Some "null"%string
  | JBool true => Some "true"%string
  | JBool false => Some "false"%string
  | JNum n => Some (Js.show_int n)
  | JStr s => Some s
  | JArr items =>
      option_map (join ",")
        (collect (map (fun i => match i with
                                | JNull => Some EmptyString
                                | _ => to_string i
                                end) items))
  | JObj members =>
      match lookup "toString" members with
      | Some _ => None
      | None => Some "[object Object]"%string
      end
  end.

(** [throw new ApiError(message, status, data)]: the constructor converts
    the message, outside the [try] block. *)
Definition throwApiError (msg : Json) (st : Z) (d : option Json) : Outcome Json :=
  match to_string msg with
  | Some text =>
      ThrownApiError {| name := "ApiError"; message := text; err_status := st; data := d |}
  | None => ThrownTypeError
  end.

Definition defaultMessage (response : Response) : string :=
  ("HTTP " ++ Js.show_int (status response) ++ ": " ++ statusText response)%string.

(** [response.json()] *)
Definition json (response : Response) : Outcome Json :=
  match body response with
  | Some v => Resolved v
  | None => ThrownSyntaxError
  end.

Definition handleResponse (response : Response) : Outcome Json :=
  if negb (ok response) then
    let errorMessage := JStr (defaultMessage response) in
    match body response with
    | None => throwApiError errorMessage (status response) None
    | Some JNull =>
        (* reading a property of null throws inside the try block *)
        throwApiError errorMessage (status response) (Some JNull)
    | Some errorData =>
        let errorMessage :=
          or_else (property errorData "detail")
                  (or_else (property errorData "message") errorMessage) in
        throwApiError errorMessage (status response) (Some errorData)
    end
  else if status response =? 204 then Resolved (JObj [])
  else json response.

(** The status line an error falls back to, as the claim words it. *)
Definition statusLine (response : Response) : string :=
  ("HTTP " ++ Js.show_int (status response) ++ ": " ++ statusText response)%string.

(** The message the error is said to carry: the body's [detail] field,
    else its [message] field, else the status line; a field counts when the
    body is an object that has it with a truthy value, and [None] says that
    the field chosen has no conversion to a string. *)
Definition statedMessage (response : Response) : option string :=
  match body response with
  | Some (JObj members) =>
      match lookup "detail" members with
      | Some d => if truthy d then to_string d else
          match lookup "message" members with
          | Some m => if truthy m then to_string m else Some (statusLine response)
          | None => Some (statusLine response)
          end
      | None =>
          match lookup "message" members with
          | Some m => if truthy m then to_string m else Some (statusLine response)
          | None => Some (statusLine response)
          end
      end
  | _ => Some (statusLine response)
  end.

End Api.

Section ApiContract.
Import Api.

Lemma json_not_ApiError (response : Response) (e : ApiError) :
  json response <> ThrownApiError e.
Proof.
  unfold json. destruct (body response); discriminate.
Qed.

Lemma or_else_message (members : list (string * Json)) (fallback : string) :
  to_string
    (or_else (lookup "detail" members)
             (or_else (lookup "message" members) (JStr fallback)))
  = match lookup "detail" members with
    | Some d => if truthy d then to_string d else
        match lookup "message" members with
        | Some m => if truthy m then to_string m else Some fallback
        | None => Some fallback
        end
    | None =>
        match lookup "message" members with
        | Some m => if truthy m then to_string m else Some fallback
        | None => Some fallback
        end
    end.
Proof.
  unfold or_else.
  destruct (lookup "detail" members) as [d |];
    [destruct (truthy d); [reflexivity |] |];
    destruct (lookup "message" members) as [m |];
    try destruct (truthy m); reflexivity.
Qed.

(** What a response that is not ok ends in: an [ApiError] with the stated
    message when that message converts, the conversion's [TypeError] when it
    does not. *)
Lemma rejected_response (response : Response) :
  ok response = false ->
  handleResponse response =
  match statedMessage response with
  | Some text =>
      ThrownApiError {| name := "ApiError"; message := text;
                        err_status := status response; data := body response |}
  | None => ThrownTypeError
  end.
Proof.
  intro N. unfold handleResponse, statedMessage, throwApiError. rewrite N.
  cbn [negb].
  destruct (body response) as [[| b | n | s | items | members] |];
    try reflexivity.
  unfold property. rewrite or_else_message.
  fold (statusLine response). unfold defaultMessage. fold (statusLine response).
  reflexivity.
Qed.

(** The response whose [detail] is an object with a [toString] member of
    its own. *)
Definition ownToStringResponse : Response :=
  {| ok := false; status := 400; statusText := "Bad Request";
     body := Some (JObj [("detail"%string, JObj [("toString"%string, JNum 1)])]) |}.

(** C9: at a response that is not ok and whose [detail] is an object with
    its own [toString] member, [handleResponse] ends in a [TypeError] and
    throws no [ApiError], against the claim.  Apart from such messages the
    claim holds: an [ApiError] is thrown only for a response that is not ok,
    and is thrown for every response that is not ok and whose message
    converts to a string; it carries the response's status and the message
    taken from the body's [detail], else its [message], else
    "HTTP <status>: <statusText>", which is the message whenever the body is
    not JSON, is not an object, or has neither field; an ok response with
    status 204 resolves to the empty object without its body being read, and
    any other ok response resolves as [response.json()] does, hence to the
    parsed body whenever the body parses. *)
Theorem handleResponse_contract (response : Response) :
  (ok ownToStringResponse = false
   /\ handleResponse ownToStringResponse = ThrownTypeError
   /\ forall e, handleResponse ownToStringResponse <> ThrownApiError e)
  /\ ((exists e, handleResponse response = ThrownApiError e) -> ok response = false)
  /\ (ok response = false ->
        forall text, statedMessage response = Some text ->
          handleResponse response
          = ThrownApiError {| name := "ApiError"; message := text;
                              err_status := status response; data := body response |})
  /\ (ok response = false ->
        (body response = None
         \/ (exists v, body response = Some v /\ forall members, v <> JObj members)
         \/ (exists members, body response = Some (JObj members)
                             /\ lookup "detail" members = None
                             /\ lookup "message" members = None)) ->
        exists e, handleResponse response = ThrownApiError e
                  /\ message e
                     = ("HTTP " ++ Js.show_int (status response) ++ ": "
                        ++ statusText response)%string
                  /\ err_status e = status response)
  /\ (forall members text,
        ok response = false -> body response = Some (JObj members) ->
        lookup "detail" members = Some (JStr text) -> text <> ""%string ->
        exists e, handleResponse response = ThrownApiError e /\ message e = text)
  /\ (forall members text,
        ok response = false -> body response = Some (JObj members) ->
        lookup "detail" members = None ->
        lookup "message" members = Some (JStr text) -> text <> ""%string ->
        exists e, handleResponse response = ThrownApiError e /\ message e = text)
  /\ (ok response = true -> status response = 204 ->
        handleResponse response = Resolved (JObj []))
  /\ (ok response = true -> status response <> 204 ->
        handleResponse response = json response
        /\ forall v, body response = Some v -> handleResponse response = Resolved v).
Proof.
  assert (ok response = true -> status response <> 204 ->
          handleResponse response = json response) as J.
  { intros O S. unfold handleResponse. rewrite O. simpl.
    apply Z.eqb_neq in S. rewrite S. reflexivity. }
  assert (ok response = true -> status response = 204 ->
          handleResponse response = Resolved (JObj [])) as E.
  { intros O S. unfold handleResponse. rewrite O, S. reflexivity. }
  split; [| split; [| split; [| split; [| split; [| split; [| split]]]]]].
  - split; [reflexivity |]. split; [reflexivity |]. intros e H.
    vm_compute in H. discriminate H.
  - intros [e H]. destruct (ok response) eqn:O; [| reflexivity].
    destruct (Z.eq_dec (status response) 204) as [S | S].
    + rewrite (E eq_refl S) in H. discriminate H.
    + rewrite (J eq_refl S) in H. exfalso. exact (json_not_ApiError _ _ H).
  - intros N text T. rewrite (rejected_response response N), T. reflexivity.
  - intros N Shape. rewrite (rejected_response response N).
    assert (statedMessage response
            = Some ("HTTP " ++ Js.show_int (status response) ++ ": "
                    ++ statusText response)%string) as T.
    { unfold statedMessage, statusLine.
      destruct Shape as [B | [[v [B NotObject]] | [members [B [D M]]]]]; rewrite B.
      - reflexivity.
      - destruct v; try reflexivity. exfalso. exact (NotObject members eq_refl).
      - rewrite D, M. reflexivity. }
    rewrite T. eexists. repeat split.
  - intros members text N B D T. rewrite (rejected_response response N).
    unfold statedMessage. rewrite B, D.
    apply Js.truthy_string_true in T. cbn [truthy]. rewrite T. cbn [to_string].
    eexists. split; reflexivity.
  - intros members text N B D M T. rewrite (rejected_response response N).
    unfold statedMessage. rewrite B, D, M.
    apply Js.truthy_string_true in T. cbn [truthy]. rewrite T. cbn [to_string].
    eexists. split; reflexivity.
  - exact E.
  - intros O S. split; [exact (J O S) |].
    intros v B. rewrite (J O S). unfold json. rewrite B. reflexivity.
Qed.

Example handleResponse_validation_error :
  handleResponse {| ok := false; status := 404; statusText := "Not Found";
                    body := Some (JObj [("detail", JStr "Case not found")]) |}
  = ThrownApiError {| name := "ApiError"; message := "Case not found";
                      err_status := 404;
                      data := Some (JObj [("detail", JStr "Case not found")]) |}.
Proof. reflexivity. Qed.

Example handleResponse_not_json :
  handleResponse {| ok := false; status := 502; statusText := "Bad Gateway"; body := None |}
  = ThrownApiError {| name := "ApiError"; message := "HTTP 502: Bad Gateway";
                      err_status := 502; data := None |}.
Proof. reflexivity. Qed.

End ApiContract.

(** ** lib/api/documents.ts *)

Module DocumentsApi.

(** A parameter with a default value: the default applies when the argument
    is left out. *)
Definition withDefault (d : Z) (arg : option Z) : Z :=
  match arg with
  | Some v => v
  | None => d
  end.

(** The endpoint [documentsApi.list] requests.  [statusArg], [limitArg] and
    [offsetArg] are [None] when the caller leaves them out. *)
Definition listEndpoint (caseId : Z) (statusArg : option string)
    (limitArg offsetArg : option Z) : string :=
  let limit := withDefault 100 limitArg in
  let offset := withDefault 0 offsetArg in
  let endpoint :=
    ("/documents/?case_id=" ++ Js.show_int caseId
     ++ "&limit=" ++ Js.show_int limit
     ++ "&offset=" ++ Js.show_int offset)%string in
  match statusArg with
  | Some st => if Js.truthy_string st then (endpoint ++ "&status=" ++ st)%string else endpoint
  | None => endpoint
  end.

(** The endpoint [documentsApi.upload] posts to. *)
Definition uploadEndpoint (caseId : Z) : string :=
  ("/documents/upload?case_id=" ++ Js.show_int caseId)%string.

(** The endpoint [documentsApi.get] requests. *)
Definition getEndpoint (documentId : Z) : string :=
  ("/documents/" ++ Js.show_int documentId)%string.

(** The three parameters every list request carries. *)
Definition baseParams (caseId : Z) (limitArg offsetArg : option Z) : list (string * string) :=
  [("case_id"%string, Js.show_int caseId);
   ("limit"%string, Js.show_int (withDefault 100 limitArg));
   ("offset"%string, Js.show_int (withDefault 0 offsetArg))].

End DocumentsApi.

Section ListEndpoint.
Import Text DocumentsApi.

Lemma query_params_base (caseId limit offset : Z) (tail : string) :
  query_params
    ("/documents/?case_id=" ++ Js.show_int caseId
     ++ "&limit=" ++ Js.show_int limit
     ++ "&offset=" ++ Js.show_int offset ++ tail)%string
  = ("case_id"%string, Js.show_int caseId)
    :: ("limit"%string, Js.show_int limit)
    :: map key_value (split_on "&" ("offset=" ++ Js.show_int offset ++ tail)%string).
Proof.
  unfold query_params.
  change ("/documents/?case_id=" ++ Js.show_int caseId
          ++ "&limit=" ++ Js.show_int limit
          ++ "&offset=" ++ Js.show_int offset ++ tail)%string
    with ("/documents/" ++ String "?" ("case_id=" ++ Js.show_int caseId
          ++ "&limit=" ++ Js.show_int limit
          ++ "&offset=" ++ Js.show_int offset ++ tail))%string.
  rewrite cut_at_app by reflexivity.
  change ("case_id=" ++ Js.show_int caseId
          ++ "&limit=" ++ Js.show_int limit
          ++ "&offset=" ++ Js.show_int offset ++ tail)%string
    with (("case_id=" ++ Js.show_int caseId)
          ++ String "&" (("limit=" ++ Js.show_int limit)
          ++ String "&" ("offset=" ++ Js.show_int offset ++ tail)))%string.
  assert (forall k n, lacks "&" k = true -> lacks "&" (k ++ Js.show_int n)%string = true) as L.
  { intros k n K. unfold lacks. rewrite all_chars_app. apply andb_true_iff.
    split; [exact K | apply show_int_lacks; reflexivity]. }
  rewrite split_on_app by (apply L; reflexivity).
  rewrite split_on_app by (apply L; reflexivity).
  rewrite !map_cons.
  change ("case_id=" ++ Js.show_int caseId)%string
    with ("case_id" ++ String "=" (Js.show_int caseId))%string.
  rewrite key_value_app by reflexivity.
  change ("limit=" ++ Js.show_int limit)%string
    with ("limit" ++ String "=" (Js.show_int limit))%string.
  rewrite key_value_app by reflexivity.
  reflexivity.
Qed.

(** The status items of a list request: none unless the status argument is
    a non-empty string, else the items of ["status=" ++ st]. *)
Definition statusItems (statusArg : option string) : list (string * string) :=
  match statusArg with
  | Some st =>
      if Js.truthy_string st
      then map key_value (split_on "&" ("status=" ++ st)%string)
      else []
  | None => []
  end.

Lemma query_params_offset (offset : Z) :
  map key_value (split_on "&" ("offset=" ++ Js.show_int offset)%string)
  = [("offset"%string, Js.show_int offset)].
Proof.
  rewrite split_on_lacks.
  - unfold map.
    change ("offset=" ++ Js.show_int offset)%string
      with ("offset" ++ String "=" (Js.show_int offset))%string.
    rewrite key_value_app by reflexivity. reflexivity.
  - unfold lacks. rewrite all_chars_app. apply andb_true_iff.
    split; [reflexivity | apply show_int_lacks; reflexivity].
Qed.

Lemma query_params_listEndpoint (caseId : Z) (statusArg : option string)
    (limitArg offsetArg : option Z) :
  query_params (listEndpoint caseId statusArg limitArg offsetArg)
  = baseParams caseId limitArg offsetArg ++ statusItems statusArg.
Proof.
  unfold listEndpoint, baseParams, statusItems.
  set (limit := withDefault 100 limitArg).
  set (offset := withDefault 0 offsetArg).
  assert (query_params
            ("/documents/?case_id=" ++ Js.show_int caseId
             ++ "&limit=" ++ Js.show_int limit
             ++ "&offset=" ++ Js.show_int offset)%string
          = [("case_id"%string, Js.show_int caseId);
             ("limit"%string, Js.show_int limit);
             ("offset"%string, Js.show_int offset)]) as Plain.
  { rewrite <- (append_empty_r (Js.show_int offset)) at 1.
    rewrite query_params_base, append_empty_r, query_params_offset. reflexivity. }
  destruct statusArg as [st |]; [destruct (Js.truthy_string st) |];
    try (rewrite Plain; reflexivity).
  replace (("/documents/?case_id=" ++ Js.show_int caseId
            ++ "&limit=" ++ Js.show_int limit
            ++ "&offset=" ++ Js.show_int offset) ++ "&status=" ++ st)%string
    with ("/documents/?case_id=" ++ Js.show_int caseId
          ++ "&limit=" ++ Js.show_int limit
          ++ "&offset=" ++ Js.show_int offset ++ "&status=" ++ st)%string.
  2:{ change ("/documents/?case_id=" ++ Js.show_int caseId
              ++ "&limit=" ++ Js.show_int limit
              ++ "&offset=" ++ Js.show_int offset)%string
        with ("/documents/?case_id=" ++ (Js.show_int caseId
              ++ ("&limit=" ++ (Js.show_int limit
              ++ ("&offset=" ++ Js.show_int offset)))))%string.
      rewrite !append_assoc. reflexivity. }
  rewrite query_params_base.
  change ("offset=" ++ Js.show_int offset ++ "&status=" ++ st)%string
    with (("offset=" ++ Js.show_int offset) ++ String "&" ("status=" ++ st))%string.
  rewrite split_on_app.
  2:{ unfold lacks. rewrite all_chars_app. apply andb_true_iff.
      split; [reflexivity | apply show_int_lacks; reflexivity]. }
  rewrite map_cons.
  change ("offset=" ++ Js.show_int offset)%string
    with ("offset" ++ String "=" (Js.show_int offset))%string.
  rewrite key_value_app by reflexivity. reflexivity.
Qed.

(** The first status item of a non-empty status has the key ["status"]. *)
Lemma statusItems_head (st : string) :
  exists v rest,
    map key_value (split_on "&" ("status=" ++ st)%string) = ("status"%string, v) :: rest.
Proof.
  destruct (split_on_head "&" "status=" st eq_refl) as [h [t E]].
  rewrite E, map_cons.
  change ("status=" ++ h)%string with ("status" ++ String "=" h)%string.
  rewrite key_value_app by reflexivity. eauto.
Qed.

(** C8, as stated, fails: a status argument that is supplied but empty
    leaves the endpoint without a status parameter. *)
Lemma empty_status_not_sent :
  ~ (forall (caseId : Z) (statusArg : option string) (limitArg offsetArg : option Z),
       In "status"%string
          (map fst (query_params (listEndpoint caseId statusArg limitArg offsetArg)))
       <-> statusArg <> None).
Proof.
  intro H.
  destruct (H 1 (Some ""%string) None None) as [_ H2].
  assert (In "status"%string
             (map fst (query_params (listEndpoint 1 (Some ""%string) None None)))) as I
    by (apply H2; discriminate).
  vm_compute in I.
  repeat (destruct I as [I | I]; [discriminate I |]). exact I.
Qed.

(** C8, amended: the parameters of every list request start with case_id,
    limit (100 unless given) and offset (0 unless given), in that order, and a
    status parameter is among them exactly when the status argument is a
    non-empty string; without one the three are all there is. *)
Theorem list_request_is_case_scoped (caseId : Z) (statusArg : option string)
    (limitArg offsetArg : option Z) :
  let params := query_params (listEndpoint caseId statusArg limitArg offsetArg) in
  firstn 3 params =
    [("case_id"%string, Js.show_int caseId);
     ("limit"%string, Js.show_int (match limitArg with Some l => l | None => 100 end));
     ("offset"%string, Js.show_int (match offsetArg with Some o => o | None => 0 end))]
  /\ (In "status"%string (map fst params) <->
        exists st, statusArg = Some st /\ st <> ""%string)
  /\ (Js.truthy statusArg = false -> List.length params = 3%nat).
Proof.
  cbv zeta. rewrite query_params_listEndpoint.
  split; [reflexivity |]. split.
  - rewrite <- Js.truthy_true. unfold statusItems, Js.truthy.
    destruct statusArg as [st |]; [destruct (Js.truthy_string st) |].
    + split; [reflexivity |]. intros _.
      destruct (statusItems_head st) as [v [rest E]]. rewrite E.
      rewrite map_app. apply in_or_app. right. left. reflexivity.
    + split; [| discriminate]. intro I. simpl in I.
      repeat (destruct I as [I | I]; [discriminate I |]). contradiction.
    + split; [| discriminate]. intro I. simpl in I.
      repeat (destruct I as [I | I]; [discriminate I |]). contradiction.
  - intro F. unfold statusItems. unfold Js.truthy in F.
    destruct statusArg as [st |]; [rewrite F |]; reflexivity.
Qed.

Example listEndpoint_default :
  listEndpoint 12 None None None = "/documents/?case_id=12&limit=100&offset=0"%string.
Proof. reflexivity. Qed.

Example listEndpoint_filtered :
  listEndpoint 12 (Some "failed"%string) (Some 20) (Some 40)
  = "/documents/?case_id=12&limit=20&offset=40&status=failed"%string.
Proof. reflexivity. Qed.

End ListEndpoint.

(** ** The form of [processing_error] *)

Section ProcessingError.
Import DocumentTypes DocumentQueue Api.

(** The JSON value the list endpoint carries for a document's
    [processing_error], as the [Document] interface types it. *)
Definition processingErrorJson (doc : Document) : Json :=
  match processing_error doc with
  | None => JNull
  | Some text => JStr text
  end.

(** A structured error record: an object with a [stage] name and a
    [message], both strings. *)
Definition isStageMessageRecord (v : Json) : bool :=
  match v with
  | JObj members =>
      match lookup "stage" members, lookup "message" members with
      | Some (JStr _), Some (JStr _) => true
      | _, _ => false
      end
  | _ => false
  end.

(** C3, as stated, fails: a failed document may carry a bare string, which
    is neither null nor a stage-and-message record. *)
Lemma bare_string_error :
  ~ (forall doc : Document,
       processingErrorJson doc = JNull
       \/ isStageMessageRecord (processingErrorJson doc) = true).
Proof.
  intro H.
  destruct (H (sampleDocument FAILED (Some "Extraction failed"%string) None)) as [E | E];
    vm_compute in E; discriminate E.
Qed.

(** C3, amended: a document's [processing_error] is either null or a plain
    string, never a stage-and-message record, and the queue shows a non-empty
    one verbatim as the error text. *)
Theorem processing_error_is_null_or_string (doc : Document) :
  (processingErrorJson doc = JNull
   \/ exists text, processing_error doc = Some text /\ processingErrorJson doc = JStr text)
  /\ isStageMessageRecord (processingErrorJson doc) = false
  /\ (forall text, processing_error doc = Some text -> text <> ""%string ->
        In (ErrorMessage text) (renderRow doc)).
Proof.
  unfold processingErrorJson.
  split; [| split].
  - destruct (processing_error doc) as [text |]; [right | left].
    + exists text. split; reflexivity.
    + reflexivity.
  - destruct (processing_error doc); reflexivity.
  - intros text E N. apply in_renderRow. do 3 right. left. exists text. auto.
Qed.

End ProcessingError.

(** ** The document processing orchestrator *)

Module Orchestrator.
Import DocumentTypes.

(** Modelled from the spec: the Document Processing Orchestrator (the
    pipeline that owns every change of [Document.status]) is not among the
    sources; its state machine, early exit, failure policy and retry are
    taken from the specification's component design. *)
Definition terminal (s : DocumentStatus) : bool :=
  match s with
  | COMPLETED | FAILED | FILTERED_OUT => true
  | _ => false
  end.

(** The fixed stage order, from the initial status to the last one. *)
Definition stageOrder : list DocumentStatus :=
  [UPLOADED; DETECTING_TYPE; EXTRACTING_BLOCKS; CLASSIFYING; ANALYZING_CONTENT;
   CHUNKING; SUMMARIZING; COMPLETED].

Definition nextStage (s : DocumentStatus) : option DocumentStatus :=
  match s with
  | UPLOADED => Some DETECTING_TYPE
  | DETECTING_TYPE => Some EXTRACTING_BLOCKS
  | EXTRACTING_BLOCKS => Some CLASSIFYING
  | CLASSIFYING => Some ANALYZING_CONTENT
  | ANALYZING_CONTENT => Some CHUNKING
  | CHUNKING => Some SUMMARIZING
  | SUMMARIZING => Some COMPLETED
  | COMPLETED | FAILED | FILTERED_OUT => None
  end.

(** How running the stage of the current status ends: its artifacts are
    persisted, the content analyzer rejects the document, or the stage raises
    an unrecoverable error (a timeout included). *)
Inductive StageOutcome : Type :=
| Succeeded
| Rejected (confidence : Q) (reasoning : string)
| Raised (message : string).

(** Modelled from the spec: the orchestrator's stage-transition function,
    which is not among the sources.  It gives the status change one stage
    execution causes, [None] when the status admits none; a rejection only
    exists after content analysis. *)
Definition transition (s : DocumentStatus) (o : StageOutcome) : option DocumentStatus :=
  if terminal s then None
  else match o with
       | Raised _ => Some FAILED
       | Rejected _ _ =>
           if status_eqb s ANALYZING_CONTENT then Some FILTERED_OUT else nextStage s
       | Succeeded => nextStage s
       end.

(** The part of a Document record the orchestrator writes. *)
Record PipelineDocument : Type := {
  doc_status : DocumentStatus;
  doc_error : option (DocumentStatus * string);
  doc_filter : option (Q * string);
  retry_count : nat
}.

Definition applyOutcome (doc : PipelineDocument) (o : StageOutcome) : PipelineDocument :=
  match transition (doc_status doc) o with
  | None => doc
  | Some t =>
      match o with
      | Raised msg =>
          {| doc_status := t; doc_error := Some (doc_status doc, msg);
             doc_filter := doc_filter doc; retry_count := S (retry_count doc) |}
      | Rejected c r =>
          {| doc_status := t; doc_error := doc_error doc;
             doc_filter := if status_eqb t FILTERED_OUT then Some (c, r) else doc_filter doc;
             retry_count := retry_count doc |}
      | Succeeded =>
          {| doc_status := t; doc_error := doc_error doc;
             doc_filter := doc_filter doc; retry_count := retry_count doc |}
      end
  end.

(** Modelled from the spec: the orchestrator's [process], which is not
    among the sources.  It drives the document forward from its current
    status, one stage per unit of fuel, until no transition is left. *)
Fixpoint process (run : DocumentStatus -> StageOutcome) (fuel : nat)
    (doc : PipelineDocument) : PipelineDocument :=
  match fuel with
  | O => doc
  | S n =>
      if terminal (doc_status doc) then doc
      else process run n (applyOutcome doc (run (doc_status doc)))
  end.

(** The statuses a [process] run writes, the starting one first. *)
Fixpoint statusTrace (run : DocumentStatus -> StageOutcome) (fuel : nat)
    (s : DocumentStatus) : list DocumentStatus :=
  s :: match fuel with
       | O => []
       | S n =>
           match transition s (run s) with
           | Some t => statusTrace run n t
           | None => []
           end
       end.

(** The operator's retry command: a failed document under the retry cap goes
    back to the stage that failed. *)
Definition retry (cap : nat) (doc : PipelineDocument) : PipelineDocument :=
  match doc_status doc, doc_error doc with
  | FAILED, Some (stage, _) =>
      if (retry_count doc <? cap)%nat
      then {| doc_status := stage; doc_error := None;
              doc_filter := doc_filter doc; retry_count := retry_count doc |}
      else doc
  | _, _ => doc
  end.

(** The edges of the state machine as the specification draws them. *)
Inductive Edge : DocumentStatus -> DocumentStatus -> Prop :=
| edge_detect : Edge UPLOADED DETECTING_TYPE
| edge_extract : Edge DETECTING_TYPE EXTRACTING_BLOCKS
| edge_classify : Edge EXTRACTING_BLOCKS CLASSIFYING
| edge_analyze : Edge CLASSIFYING ANALYZING_CONTENT
| edge_chunk : Edge ANALYZING_CONTENT CHUNKING
| edge_filter : Edge ANALYZING_CONTENT FILTERED_OUT
| edge_summarize : Edge CHUNKING SUMMARIZING
| edge_complete : Edge SUMMARIZING COMPLETED
| edge_fail (s : DocumentStatus) : terminal s = false -> Edge s FAILED.

(** Every two consecutive statuses of a list are joined by an edge. *)
Fixpoint edgesOnly (l : list DocumentStatus) : Prop :=
  match l with
  | a :: (b :: _) as rest => Edge a b /\ edgesOnly rest
  | _ => True
  end.

(** [t] comes right after [s] in the stage order. *)
Definition nextInOrder (s t : DocumentStatus) : Prop :=
  exists before after, stageOrder = before ++ s :: t :: after.

(** Stage executions left before a terminal status, at most. *)
Definition remaining (s : DocumentStatus) : nat :=
  match s with
  | UPLOADED => 7
  | DETECTING_TYPE => 6
  | EXTRACTING_BLOCKS => 5
  | CLASSIFYING => 4
  | ANALYZING_CONTENT => 3
  | CHUNKING => 2
  | SUMMARIZING => 1
  | COMPLETED | FAILED | FILTERED_OUT => 0
  end%nat.

Lemma transition_edge (s t : DocumentStatus) (o : StageOutcome) :
  transition s o = Some t -> Edge s t.
Proof.
  destruct s, o; intro H; vm_compute in H; inversion H; subst;
    constructor; reflexivity.
Qed.

Lemma transition_no_skip (s t : DocumentStatus) (o : StageOutcome) :
  transition s o = Some t ->
  t = FAILED \/ (s = ANALYZING_CONTENT /\ t = FILTERED_OUT) \/ nextInOrder s t.
Proof.
  destruct s, o; intro H; vm_compute in H; inversion H; subst; auto;
    right; right; unfold nextInOrder, stageOrder.
  all: first
    [ exists []; eexists; reflexivity
    | exists [UPLOADED]; eexists; reflexivity
    | exists [UPLOADED; DETECTING_TYPE]; eexists; reflexivity
    | exists [UPLOADED; DETECTING_TYPE; EXTRACTING_BLOCKS]; eexists; reflexivity
    | exists [UPLOADED; DETECTING_TYPE; EXTRACTING_BLOCKS; CLASSIFYING];
      eexists; reflexivity
    | exists [UPLOADED; DETECTING_TYPE; EXTRACTING_BLOCKS; CLASSIFYING;
              ANALYZING_CONTENT]; eexists; reflexivity
    | exists [UPLOADED; DETECTING_TYPE; EXTRACTING_BLOCKS; CLASSIFYING;
              ANALYZING_CONTENT; CHUNKING]; eexists; reflexivity ].
Qed.

Lemma transition_terminal (s : DocumentStatus) (o : StageOutcome) :
  transition s o = None <-> terminal s = true.
Proof.
  split.
  - destruct s, o; intro H; try reflexivity; vm_compute in H; discriminate H.
  - intro T. unfold transition. rewrite T. reflexivity.
Qed.

Lemma transition_remaining (s t : DocumentStatus) (o : StageOutcome) :
  transition s o = Some t -> (remaining t < remaining s)%nat.
Proof.
  destruct s, o; intro H; vm_compute in H; inversion H; subst; simpl; lia.
Qed.

Lemma statusTrace_edges (run : DocumentStatus -> StageOutcome) (fuel : nat) :
  forall s, edgesOnly (statusTrace run fuel s).
Proof.
  induction fuel as [| n IH]; intro s; simpl; [exact I |].
  destruct (transition s (run s)) as [t |] eqn:T; [| exact I].
  specialize (IH t). destruct n; simpl in *.
  - split; [exact (transition_edge _ _ _ T) | exact I].
  - split; [exact (transition_edge _ _ _ T) | exact IH].
Qed.

Lemma statusTrace_ends_terminal (run : DocumentStatus -> StageOutcome) (fuel : nat) :
  forall s, (remaining s <= fuel)%nat ->
            terminal (last (statusTrace run fuel s) s) = true.
Proof.
  induction fuel as [| n IH]; intros s R.
  - simpl. destruct s; simpl in R; try lia; reflexivity.
  - simpl. destruct (transition s (run s)) as [t |] eqn:T.
    + pose proof (transition_remaining _ _ _ T) as L.
      assert (remaining t <= n)%nat as Rt by lia.
      specialize (IH t Rt).
      destruct (statusTrace run n t) as [| x rest] eqn:X.
      * destruct n; simpl in X; discriminate X.
      * assert (last (x :: rest) s = last (x :: rest) t) as Same.
        { clear. revert x. induction rest as [| y r IHr]; intro x; [reflexivity |].
          simpl in *. apply IHr. }
        rewrite Same. exact IH.
    + apply transition_terminal in T. exact T.
Qed.

Lemma applyOutcome_status (doc : PipelineDocument) (o : StageOutcome) :
  doc_status (applyOutcome doc o)
  = match transition (doc_status doc) o with
    | Some t => t
    | None => doc_status doc
    end.
Proof.
  unfold applyOutcome.
  destruct (transition (doc_status doc) o); [destruct o |]; reflexivity.
Qed.

Lemma process_terminal (run : DocumentStatus -> StageOutcome) (fuel : nat)
    (doc : PipelineDocument) :
  terminal (doc_status doc) = true -> process run fuel doc = doc.
Proof.
  intro T. destruct fuel; simpl; [reflexivity |]. rewrite T. reflexivity.
Qed.

Lemma process_status (run : DocumentStatus -> StageOutcome) (fuel : nat) :
  forall doc,
    doc_status (process run fuel doc)
    = last (statusTrace run fuel (doc_status doc)) (doc_status doc).
Proof.
  induction fuel as [| n IH]; intro doc; simpl; [reflexivity |].
  destruct (terminal (doc_status doc)) eqn:T.
  - apply (transition_terminal _ (run (doc_status doc))) in T.
    rewrite T. reflexivity.
  - destruct (transition (doc_status doc) (run (doc_status doc))) as [t |] eqn:X.
    + rewrite IH, applyOutcome_status, X.
      destruct (statusTrace run n t) as [| x rest] eqn:Y.
      * destruct n; simpl in Y; discriminate Y.
      * clear. revert x. induction rest as [| y r IHr]; intro x; [reflexivity |].
        simpl in *. apply IHr.
    + apply transition_terminal in X. congruence.
Qed.

End Orchestrator.

Section StateMachine.
Import DocumentTypes Orchestrator.

(** C2: every status change the orchestrator makes follows an edge of the
    state machine; apart from the failure edge and the filtered_out exit after
    content analysis it moves to the very next stage of the fixed order, so no
    stage is skipped; failed is reachable from every non-terminal status;
    completed, failed and filtered_out admit no transition, and [process]
    leaves a document in one of them unchanged; a run writes only edges and,
    given fuel for the seven stages, ends in a terminal status. *)
Theorem status_transitions_follow_edges
    (run : DocumentStatus -> StageOutcome) (fuel : nat)
    (doc : PipelineDocument) (s : DocumentStatus) (o : StageOutcome) :
  match transition s o with
  | Some t =>
      Edge s t
      /\ (t = FAILED \/ (s = ANALYZING_CONTENT /\ t = FILTERED_OUT) \/ nextInOrder s t)
  | None => s = COMPLETED \/ s = FAILED \/ s = FILTERED_OUT
  end
  /\ transition COMPLETED o = None
  /\ transition FAILED o = None
  /\ transition FILTERED_OUT o = None
  /\ (terminal s = false -> forall msg, transition s (Raised msg) = Some FAILED)
  /\ (terminal (doc_status doc) = true -> process run fuel doc = doc)
  /\ edgesOnly (statusTrace run fuel s)
  /\ doc_status (process run fuel doc)
     = last (statusTrace run fuel (doc_status doc)) (doc_status doc)
  /\ terminal (doc_status (process run 7 doc)) = true.
Proof.
  split.
  { destruct (transition s o) as [t |] eqn:T.
    - split; [exact (transition_edge _ _ _ T) | exact (transition_no_skip _ _ _ T)].
    - apply transition_terminal in T. destruct s; try discriminate T; auto. }
  repeat split.
  - intros T msg. unfold transition. rewrite T. reflexivity.
  - apply process_terminal.
  - apply statusTrace_edges.
  - apply process_status.
  - rewrite process_status. apply statusTrace_ends_terminal.
    destruct (doc_status doc); simpl; lia.
Qed.

Example accepted_document_run :
  statusTrace (fun _ => Succeeded) 7 UPLOADED
  = [UPLOADED; DETECTING_TYPE; EXTRACTING_BLOCKS; CLASSIFYING; ANALYZING_CONTENT;
     CHUNKING; SUMMARIZING; COMPLETED].
Proof. reflexivity. Qed.

Example rejected_document_run :
  statusTrace
    (fun s => if status_eqb s ANALYZING_CONTENT then Rejected (9 # 10) "spam" else Succeeded)
    7 UPLOADED
  = [UPLOADED; DETECTING_TYPE; EXTRACTING_BLOCKS; CLASSIFYING; ANALYZING_CONTENT;
     FILTERED_OUT].
Proof. reflexivity. Qed.

End StateMachine.

(** ** The chunking engine *)

Module Chunking.
Import Text.

(** Modelled from the spec: the Chunking Engine and the Blocks document it
    reads are not among the sources.  The model follows the specification's
    data model and tiered algorithm: the body text is the text of the blocks
    that are neither header nor footer, in page and block order; it is cut
    into sentences; the structural pass starts a chunk at every structure
    marker, the semantic pass at every drop of similarity between consecutive
    sentences, and the refinement capability re-splits single chunks.  A
    block's bounding box and style and a chunk's block range, section tag and
    vector id play no part in the text of the chunks and are left out. *)
Inductive KindHint : Type :=
| Header | Footer | Paragraph | Heading | Table | ListItem | Other.

Record Block : Type := {
  block_text : string;
  kind_hint : KindHint
}.

Record BlocksDocument : Type := {
  schema_version : nat;
  pages : list (list Block)
}.

Definition isBody (b : Block) : bool :=
  match kind_hint b with
  | Header | Footer => false
  | _ => true
  end.

Definition bodyBlocks (doc : BlocksDocument) : list Block :=
  filter isBody (List.concat (pages doc)).

(** Concatenation of texts, in order. *)
Fixpoint flatten (parts : list string) : string :=
  match parts with
  | [] => EmptyString
  | p :: rest => (p ++ flatten rest)%string
  end.

Definition bodyText (doc : BlocksDocument) : string :=
  flatten (map block_text (bodyBlocks doc)).

(** Space, tab, line feed, carriage return. *)
Definition is_space (c : ascii) : bool :=
  let n := nat_of_ascii c in
  (n =? 32)%nat || (n =? 9)%nat || (n =? 10)%nat || (n =? 13)%nat.

(** Terminal punctuation of a sentence. *)
Definition is_terminal (c : ascii) : bool :=
  Ascii.eqb c "." || Ascii.eqb c "!" || Ascii.eqb c "?".

(** Words are the maximal runs of characters other than white space. *)
Fixpoint countWordsFrom (inWord : bool) (s : string) : nat :=
  match s with
  | EmptyString => O
  | String c r =>
      if is_space c then countWordsFrom false r
      else ((if inWord then 0 else 1) + countWordsFrom true r)%nat
  end.

Definition wordCount (s : string) : nat := countWordsFrom false s.

Definition hasWord (s : string) : bool := negb (all_chars is_space s).

(** Sentence scanning.  A sentence ends after terminal punctuation and the
    white space that follows it; the next sentence starts at the next
    character that is not white space. *)
Inductive ScanState : Type :=
| InSentence
| AfterStop
| InGap.

Definition scanNext (st : ScanState) (c : ascii) : ScanState :=
  if is_space c then
    match st with
    | InSentence => InSentence
    | _ => InGap
    end
  else if is_terminal c then AfterStop
  else InSentence.

Definition consHead (c : ascii) (l : list string) : list string :=
  match l with
  | h :: t => String c h :: t
  | [] => [String c EmptyString]
  end.

(** The head of the result continues the sentence being read. *)
Fixpoint scan (st : ScanState) (s : string) : list string :=
  match s with
  | EmptyString => [EmptyString]
  | String c r =>
      let rest := consHead c (scan (scanNext st c) r) in
      match st with
      | InGap => if is_space c then rest else EmptyString :: rest
      | _ => rest
      end
  end.

Definition sentences (s : string) : list string :=
  match s with
  | EmptyString => []
  | _ => scan InSentence s
  end.

(** Consecutive sentences grouped into chunks: [cut prev cur] says that a
    new chunk starts at [cur]. *)
Fixpoint groupFrom (cut : string -> string -> bool) (prev : string)
    (rest : list string) : list (list string) :=
  match rest with
  | [] => [[prev]]
  | cur :: rest' =>
      if cut prev cur then [prev] :: groupFrom cut cur rest'
      else match groupFrom cut cur rest' with
           | g :: gs => (prev :: g) :: gs
           | [] => [[prev]]
           end
  end.

Definition groups (cut : string -> string -> bool) (sents : list string)
  : list (list string) :=
  match sents with
  | [] => []
  | first :: rest => groupFrom cut first rest
  end.

Fixpoint lastVisible (s : string) : option ascii :=
  match s with
  | EmptyString => None
  | String c r =>
      match lastVisible r with
      | Some x => Some x
      | None => if is_space c then None else Some c
      end
  end.

(** The text ends on a sentence boundary: its last visible character is
    terminal punctuation. *)
Definition endsSentence (t : string) : bool :=
  match lastVisible t with
  | Some c => is_terminal c
  | None => false
  end.

Inductive ChunkMethod : Type :=
| Structural
| Semantic
| LlmRefined.

Record Chunk : Type := {
  index : nat;
  text : string;
  method : ChunkMethod;
  word_count : nat
}.

Inductive ChunkResult : Type :=
| Chunks (cs : list Chunk)
| ValidationError (reason : string).

Fixpoint number (from : nat) (pieces : list (ChunkMethod * string)) : list Chunk :=
  match pieces with
  | [] => []
  | (m, t) :: rest =>
      {| index := from; text := t; method := m; word_count := wordCount t |}
      :: number (S from) rest
  end.


(** *** Texts, words and sentences *)









Lemma scan_nonempty (s : string) (st : ScanState) : scan st s <> [].
Proof.
  destruct s as [| c r]; [discriminate |].
  simpl. destruct (scan (scanNext st c) r); destruct st; simpl;
    try discriminate; destruct (is_space c); discriminate.
Qed.




Lemma sentences_nonempty (s : string) : hasWord s = true -> sentences s <> [].
Proof.
  destruct s; [discriminate |]. intros _. apply scan_nonempty.
Qed.

(** *** Grouping *)







(** *** Numbering *)





Section Engine.

(** The capabilities the engine consumes: detection of a structure marker
    (heading, numbered clause) at the start of a sentence, whether the
    embeddings of two consecutive sentences are at least as similar as the
    fixed threshold, the subordinating-phrase heuristic, and the generative
    refinement asked to re-split one chunk under a size bound. *)
Variable is_marker : string -> bool.
Variable similar : string -> string -> bool.
Variable subordinating : string -> bool.
Variable refine : string -> nat -> list string.

Definition structuralPass (sents : list string) : list string :=
  map flatten (groups (fun _ cur => is_marker cur) sents).

Definition semanticPass (sents : list string) : list string :=
  map flatten (groups (fun prev cur => negb (similar prev cur)) sents).

Definition acceptable (max_chunk_size : nat) (t : string) : bool :=
  (String.length t <=? max_chunk_size)%nat && endsSentence t.

Definition needsRefinement (max_chunk_size : nat) (t : string) : bool :=
  (max_chunk_size <? String.length t)%nat || negb (endsSentence t) || subordinating t.

(** Only a chunk that needs it is handed to the capability, and the pieces
    the capability answers with take its place. *)
Definition refineChunk (max_chunk_size : nat) (t : string) : list (ChunkMethod * string) :=
  if needsRefinement max_chunk_size t
  then map (fun p => (LlmRefined, p)) (refine t max_chunk_size)
  else [(Semantic, t)].


(** Modelled from the spec: the engine's [chunk], which is not among the
    sources.  A body without a word gives no chunk, which is a validation
    error; otherwise the structural result is taken when structure is detected
    and every chunk of it is within the size bound and ends a sentence, else
    the semantic result with its problematic chunks refined. *)
Definition chunk (doc : BlocksDocument) (max_chunk_size : nat) : ChunkResult :=
  let body := bodyText doc in
  if negb (hasWord body) then ValidationError "empty chunk set"
  else
    let sents := sentences body in
    let structural := structuralPass sents in
    if existsb is_marker sents && forallb (acceptable max_chunk_size) structural
    then Chunks (number 0 (map (fun t => (Structural, t)) structural))
    else Chunks (number 0 (flat_map (refineChunk max_chunk_size) (semanticPass sents))).




End Engine.

End Chunking.

Section ChunkingLaws.
Import Text Chunking.


Definition sampleBlocks : BlocksDocument :=
  {| schema_version := 1;
     pages :=
       [[{| block_text := "ACME Corp"; kind_hint := Header |};
         {| block_text := "The Seller agrees. "; kind_hint := Paragraph |}];
        [{| block_text := "The Buyer pays. Done"; kind_hint := Paragraph |};
         {| block_text := "Page 2"; kind_hint := Footer |}]] |}.

Example sampleBlocks_chunks :
  chunk (fun _ => false) (fun _ _ => false) (fun _ => false) (fun t _ => [t])
        sampleBlocks 100
  = Chunks
      [{| index := 0; text := "The Seller agrees. "; method := Semantic; word_count := 3 |};
       {| index := 1; text := "The Buyer pays. "; method := Semantic; word_count := 3 |};
       {| index := 2; text := "Done"; method := LlmRefined; word_count := 1 |}].
Proof. reflexivity. Qed.



Example headers_only_is_rejected :
  chunk (fun _ => false) (fun _ _ => false) (fun _ => false) (fun t _ => [t])
        {| schema_version := 1;
           pages := [[{| block_text := "ACME Corp"; kind_hint := Header |}]] |} 100
  = ValidationError "empty chunk set".
Proof. reflexivity. Qed.

End ChunkingLaws.

(** ** Further properties of types/document.ts and the document queue *)

Module QueueView.
Import DocumentTypes DocumentQueue.

(** [statusFilter] of [loadDocuments]: the filter ["all"] sends no status. *)
Definition statusFilter (filter : string) : option string :=
  if String.eqb filter "all" then None else Some filter.

(** The endpoint [loadDocuments] requests: [documentsApi.list(caseId,
    statusFilter)], the limit and the offset left to their defaults. *)
Definition loadEndpoint (caseId : Z) (st : QueueState) : string :=
  DocumentsApi.listEndpoint caseId (statusFilter (filterStatus st)) None None.

(** How the awaited [documentsApi.list] ends: with the response, or with a
    thrown value whose [message] may be missing. *)
Inductive ListResult : Type :=
| Listed (response : DocumentListResponse)
| ListThrew (message : option string).

(** The state [loadDocuments] sets before it awaits the request. *)
Definition loadStart (st : QueueState) : QueueState :=
  {| st_documents := st_documents st; isLoading := true;
     st_error := None; filterStatus := filterStatus st |}.

(** The state once the request has ended, the [finally] block included. *)
Definition loadFinish (st : QueueState) (r : ListResult) : QueueState :=
  match r with
  | Listed response =>
      {| st_documents := documents response; isLoading := false;
         st_error := st_error st; filterStatus := filterStatus st |}
  | ListThrew msg =>
      {| st_documents := st_documents st; isLoading := false;
         st_error := Some (if Js.truthy msg
                           then match msg with Some m => m | None => EmptyString end
                           else "Failed to load documents"%string);
         filterStatus := filterStatus st |}
  end.

Definition loadDocuments (st : QueueState) (r : ListResult) : QueueState :=
  loadFinish (loadStart st) r.

(** The sections below the header, in the order of the view. *)
Inductive QueueSection : Type :=
| LoadingSpinner
| ErrorPanel (text : string)
| EmptyState
| DocumentList (rows : list (list RowElement)).

Definition noDocuments (st : QueueState) : bool :=
  (Z.of_nat (List.length (st_documents st)) =? 0).

Definition someDocuments (st : QueueState) : bool :=
  (0 <? Z.of_nat (List.length (st_documents st))).

Definition renderSections (st : QueueState) : list QueueSection :=
  (if isLoading st && noDocuments st then [LoadingSpinner] else [])
  ++ match st_error st with
     | Some e => if Js.truthy_string e then [ErrorPanel e] else []
     | None => []
     end
  ++ (if negb (isLoading st) && negb (Js.truthy (st_error st)) && noDocuments st
      then [EmptyState] else [])
  ++ (if negb (isLoading st) && negb (Js.truthy (st_error st)) && someDocuments st
      then [DocumentList (map renderRow (st_documents st))] else []).

End QueueView.

Section QueueProperties.
Import DocumentTypes DocumentQueue QueueView.

(** X1: every status has a label of its own: the label is the table's
    non-empty entry, never the raw status value, and two statuses with the
    same label are the same status. *)
Theorem status_labels_distinct (a b : DocumentStatus) :
  getStatusLabel a = labels a
  /\ getStatusLabel a <> ""%string
  /\ getStatusLabel a <> status_value a
  /\ (getStatusLabel a = getStatusLabel b -> a = b).
Proof.
  split; [destruct a; reflexivity |].
  split; [destruct a; discriminate |].
  split; [destruct a; discriminate |].
  destruct a, b; intro H; try reflexivity; vm_compute in H; discriminate H.
Qed.

(** X2: the badge colour sorts the statuses into five classes: success is
    completed, error is failed, neutral is filtered_out, info is the five
    working stages from extracting_blocks to summarizing, and warning is
    uploaded and detecting_type; a document counts as still processing exactly
    when its badge is info or warning. *)
Theorem status_color_classes (doc : Document) (s : DocumentStatus) :
  (getStatusColor s = success <-> s = COMPLETED)
  /\ (getStatusColor s = neutral <-> s = FILTERED_OUT)
  /\ (getStatusColor s = info <->
        In s [EXTRACTING_BLOCKS; CLASSIFYING; ANALYZING_CONTENT; CHUNKING; SUMMARIZING])
  /\ (getStatusColor s = warning <-> s = UPLOADED \/ s = DETECTING_TYPE)
  /\ (isProcessing doc = true <->
        getStatusColor (status doc) = info \/ getStatusColor (status doc) = warning).
Proof.
  repeat split.
  1-8: destruct s; simpl; intro H;
    repeat match goal with
           | X : _ \/ _ |- _ => destruct X as [X | X]
           | X : False |- _ => contradiction
           end;
    try reflexivity; try discriminate; auto 10.
  - rewrite isProcessing_spec. intros [C [F O]].
    destruct (status doc); try congruence; vm_compute; auto.
  - rewrite isProcessing_spec.
    destruct (status doc); intros [H | H]; vm_compute in H; try discriminate H;
      repeat split; discriminate.
Qed.

(** X3: a row never shows the processing indicator together with a filter
    reasoning, nor beside a success, error or neutral badge. *)
Theorem indicator_excludes_final_marks (doc : Document) (r : string) (label : string) :
  ~ (In ProcessingIndicator (renderRow doc) /\ In (FilterReasoning r) (renderRow doc))
  /\ ~ (In ProcessingIndicator (renderRow doc)
        /\ (In (StatusBadge success label) (renderRow doc)
            \/ In (StatusBadge error label) (renderRow doc)
            \/ In (StatusBadge neutral label) (renderRow doc))).
Proof.
  split.
  - intros [P F]. apply in_renderRow in P. apply in_renderRow in F.
    decompose [or ex and] P; clear P; try discriminate.
    decompose [or ex and] F; clear F; try discriminate.
    match goal with X : isProcessing doc = true |- _ =>
      apply isProcessing_spec in X; destruct X as [_ [_ X]] end.
    congruence.
  - intros [P B]. apply in_renderRow in P.
    decompose [or ex and] P; clear P; try discriminate.
    match goal with X : isProcessing doc = true |- _ =>
      apply isProcessing_spec in X; destruct X as [C [F O]] end.
    assert (forall c, In (StatusBadge c label) (renderRow doc) ->
                      c = getStatusColor (status doc)) as Colour.
    { intros c I. apply in_renderRow in I.
      decompose [or ex and] I; clear I; try discriminate.
      match goal with X : StatusBadge _ _ = StatusBadge _ _ |- _ => inversion X end.
      reflexivity. }
    destruct B as [B | [B | B]]; apply Colour in B; symmetry in B;
      destruct (status doc); vm_compute in B; try discriminate B; congruence.
Qed.

Lemma documents_counted (st : QueueState) :
  (st_documents st = [] -> noDocuments st = true /\ someDocuments st = false)
  /\ (st_documents st <> [] -> noDocuments st = false /\ someDocuments st = true).
Proof.
  unfold noDocuments, someDocuments. destruct (st_documents st) as [| d l].
  - split; [intros _; split; reflexivity | congruence].
  - split; [discriminate | intros _; split; reflexivity].
Qed.

(** X4: of the loading spinner, the empty state and the document list the
    queue shows at most one; it shows no section at all exactly while a load is
    in flight over a non-empty list with no error, which is the state every
    refresh of a non-empty list starts in. *)
Theorem queue_sections_exclusive (st : QueueState) (rows : list (list RowElement)) :
  ~ (In LoadingSpinner (renderSections st) /\ In EmptyState (renderSections st))
  /\ ~ (In LoadingSpinner (renderSections st) /\ In (DocumentList rows) (renderSections st))
  /\ ~ (In EmptyState (renderSections st) /\ In (DocumentList rows) (renderSections st))
  /\ (renderSections st = [] <->
        isLoading st = true /\ st_documents st <> [] /\ Js.truthy (st_error st) = false)
  /\ (st_documents st <> [] -> renderSections (loadStart st) = [])
  /\ (st_documents st = [] -> renderSections (loadStart st) = [LoadingSpinner]).
Proof.
  destruct (documents_counted st) as [Zero Some_].
  assert (forall x, In x (renderSections st) ->
            (x = LoadingSpinner /\ isLoading st = true /\ noDocuments st = true)
            \/ (exists e, x = ErrorPanel e)
            \/ (x = EmptyState /\ isLoading st = false /\ noDocuments st = true)
            \/ (exists l, x = DocumentList l /\ isLoading st = false
                          /\ someDocuments st = true)) as Cases.
  { intros x I. unfold renderSections in I.
    destruct (isLoading st), (noDocuments st), (someDocuments st),
      (st_error st) as [[| c e] |]; simpl in I; try contradiction;
      repeat (destruct I as [I | I]; try contradiction); subst; eauto 10. }
  assert (noDocuments st = true -> someDocuments st = false) as Excl.
  { destruct (st_documents st) eqn:D.
    - intros _. apply Zero. reflexivity.
    - intro N. destruct Some_ as [N' _]; congruence. }
  split; [| split; [| split; [| split; [| split]]]].
  - intros [A B]. apply Cases in A. apply Cases in B.
    decompose [or ex and] A; clear A; try discriminate.
    decompose [or ex and] B; clear B; try discriminate. congruence.
  - intros [A B]. apply Cases in A. apply Cases in B.
    decompose [or ex and] A; clear A; try discriminate.
    decompose [or ex and] B; clear B; try discriminate. congruence.
  - intros [A B]. apply Cases in A. apply Cases in B.
    decompose [or ex and] A; clear A; try discriminate.
    decompose [or ex and] B; clear B; try discriminate.
    match goal with X : noDocuments st = true |- _ => apply Excl in X end. congruence.
  - unfold renderSections, Js.truthy. split.
    + intro E. destruct (st_documents st) as [| d l] eqn:D.
      * destruct Zero as [N S']; [reflexivity |]. rewrite N, S' in E.
        destruct (isLoading st), (st_error st) as [[| c e] |]; simpl in E; discriminate E.
      * destruct Some_ as [N S']; [discriminate |]. rewrite N, S' in E.
        destruct (isLoading st), (st_error st) as [[| c e] |]; simpl in E;
          try discriminate E; repeat split; discriminate.
    + intros [L [D T]]. destruct (Some_ D) as [N S']. rewrite L, N, S'.
      destruct (st_error st) as [[| c e] |]; simpl in *; try reflexivity; discriminate T.
  - intro D. unfold renderSections, noDocuments, someDocuments. simpl.
    destruct (st_documents st); [congruence | reflexivity].
  - intro D. unfold renderSections, noDocuments, someDocuments. simpl.
    rewrite D. reflexivity.
Qed.

Lemma queue_sections_refresh_witness :
  let st := {| st_documents := [sampleDocument CHUNKING None None]; isLoading := false;
               st_error := None; filterStatus := "all"%string |} in
  st_documents st <> [] /\ renderSections (loadStart st) = [].
Proof.
  cbv zeta. split; [discriminate |].
  apply (queue_sections_exclusive
           {| st_documents := [sampleDocument CHUNKING None None]; isLoading := false;
              st_error := None; filterStatus := "all"%string |} []).
  discriminate.
Defined.


(** The values of the filter select, in the order of its options. *)
Definition filterOptions : list string :=
  ["all"; "processing"; "completed"; "failed"; "incomplete"]%string.

Lemma statusItems_plain (f : string) :
  f <> ""%string -> Text.lacks "&" f = true ->
  statusItems (Some f) = [("status"%string, f)].
Proof.
  intros N L. unfold statusItems.
  apply Js.truthy_string_true in N. rewrite N.
  rewrite Text.split_on_lacks.
  - unfold map.
    change ("status=" ++ f)%string with ("status" ++ String "=" f)%string.
    rewrite Text.key_value_app by reflexivity. reflexivity.
  - unfold Text.lacks. rewrite Text.all_chars_app. apply andb_true_iff.
    split; [reflexivity | exact L].
Qed.

(** X6: whatever the filter, the queue asks for the first 100 documents of
    the case (limit 100, offset 0, never another page); the filter "all" sends
    no status, every other option of the select sends itself as the status;
    and of those options only "completed" and "failed" are status values of a
    document. *)
Theorem queue_request_parameters (caseId : Z) (st : QueueState) (s : DocumentStatus) :
  firstn 3 (Text.query_params (loadEndpoint caseId st))
  = [("case_id"%string, Js.show_int caseId);
     ("limit"%string, "100"%string); ("offset"%string, "0"%string)]
  /\ (filterStatus st = "all"%string ->
        List.length (Text.query_params (loadEndpoint caseId st)) = 3%nat)
  /\ (In (filterStatus st) filterOptions -> filterStatus st <> "all"%string ->
        skipn 3 (Text.query_params (loadEndpoint caseId st))
        = [("status"%string, filterStatus st)])
  /\ (In (status_value s) filterOptions <-> s = COMPLETED \/ s = FAILED).
Proof.
  unfold loadEndpoint. rewrite query_params_listEndpoint.
  split; [reflexivity |]. split; [| split].
  - intro A. unfold statusFilter. rewrite A. reflexivity.
  - intros I N. unfold statusFilter.
    apply String.eqb_neq in N. rewrite N.
    simpl skipn. apply statusItems_plain.
    + simpl in I. repeat (destruct I as [I | I]); try contradiction;
        rewrite <- I; discriminate.
    + simpl in I. repeat (destruct I as [I | I]); try contradiction;
        rewrite <- I; reflexivity.
  - split.
    + destruct s; simpl; intro I; decompose [or] I; clear I;
        try discriminate; try contradiction; auto.
    + intros [-> | ->]; simpl; auto 10.
Qed.

End QueueProperties.

(** ** Further properties of the API endpoints *)

From Stdlib Require DecimalZ.

Module CasesApi.

(** The endpoint of [casesApi.list] and [casesApi.create]. *)
Definition collectionEndpoint : string := "/cases/".

(** The endpoint of [casesApi.get], [casesApi.update] and
    [casesApi.delete]. *)
Definition caseEndpoint (caseId : Z) : string :=
  ("/cases/" ++ Js.show_int caseId)%string.

End CasesApi.

Section EndpointProperties.
Import Text DocumentsApi CasesApi.

Lemma show_int_inj (a b : Z) : Js.show_int a = Js.show_int b -> a = b.
Proof.
  unfold Js.show_int. intro H. apply DecimalZ.to_int_inj.
  apply (f_equal NilEmpty.int_of_string) in H.
  rewrite !NilEmpty.isi in H. inversion H. reflexivity.
Qed.

Lemma append_inv_head (a x y : string) : (a ++ x = a ++ y)%string -> x = y.
Proof.
  induction a as [| c r IH]; simpl; intro H; [exact H |].
  inversion H. apply IH. assumption.
Qed.

Lemma append_not_longer (a x : string) : (a ++ x = a)%string -> x = ""%string.
Proof.
  intro H. apply (append_inv_head a). rewrite append_empty_r. exact H.
Qed.

(** Splitting distributes over a separator. *)
Lemma split_on_separator (c : ascii) (a b : string) :
  split_on c (a ++ String c b)%string = split_on c a ++ split_on c b.
Proof.
  induction a as [| x r IH]; simpl.
  - rewrite Ascii.eqb_refl. reflexivity.
  - destruct (Ascii.eqb x c); [rewrite IH; reflexivity |].
    rewrite IH. destruct (split_on c r) as [| h t] eqn:R.
    + exfalso. exact (split_on_nonempty _ _ R).
    + reflexivity.
Qed.

(** The status a list request really sends: none for a missing or empty
    argument. *)
Definition sentStatus (statusArg : option string) : option string :=
  if Js.truthy statusArg then statusArg else None.

Lemma listEndpoint_shape (caseId : Z) (statusArg : option string)
    (limitArg offsetArg : option Z) :
  listEndpoint caseId statusArg limitArg offsetArg
  = (("/documents/?case_id=" ++ Js.show_int caseId
      ++ "&limit=" ++ Js.show_int (withDefault 100 limitArg)
      ++ "&offset=" ++ Js.show_int (withDefault 0 offsetArg))
     ++ match sentStatus statusArg with
        | Some st => "&status=" ++ st
        | None => ""
        end)%string.
Proof.
  unfold listEndpoint, sentStatus, Js.truthy.
  destruct statusArg as [st |]; [destruct (Js.truthy_string st) |];
    try reflexivity; rewrite append_empty_r; reflexivity.
Qed.

(** X7: an upload is addressed to its case by exactly one query parameter,
    case_id; the request for a single document carries no query parameter at
    all, so no case identifier either. *)
Theorem upload_and_get_parameters (caseId documentId : Z) :
  query_params (uploadEndpoint caseId) = [("case_id"%string, Js.show_int caseId)]
  /\ query_params (getEndpoint documentId) = []
  /\ lacks "?" (getEndpoint documentId) = true.
Proof.
  assert (lacks "?" (getEndpoint documentId) = true) as L.
  { unfold getEndpoint, lacks. rewrite all_chars_app. apply andb_true_iff.
    split; [reflexivity | apply show_int_lacks; reflexivity]. }
  split; [| split; [| exact L]].
  - unfold uploadEndpoint, query_params.
    change ("/documents/upload?case_id=" ++ Js.show_int caseId)%string
      with ("/documents/upload" ++ String "?" ("case_id=" ++ Js.show_int caseId))%string.
    rewrite cut_at_app by reflexivity.
    rewrite split_on_lacks.
    + unfold map.
      change ("case_id=" ++ Js.show_int caseId)%string
        with ("case_id" ++ String "=" (Js.show_int caseId))%string.
      rewrite key_value_app by reflexivity. reflexivity.
    + unfold lacks. rewrite all_chars_app. apply andb_true_iff.
      split; [reflexivity | apply show_int_lacks; reflexivity].
  - unfold query_params. rewrite (cut_at_lacks _ _ L). reflexivity.
Qed.

(** X8: endpoints are unambiguous: two list requests with the same endpoint
    are for the same case, limit, offset and sent status, and the endpoints of
    a single document, of an upload and of a single case differ whenever their
    identifiers do. *)
Theorem endpoints_injective
    (c1 c2 : Z) (s1 s2 : option string) (l1 l2 o1 o2 : option Z) :
  (listEndpoint c1 s1 l1 o1 = listEndpoint c2 s2 l2 o2 ->
     c1 = c2 /\ withDefault 100 l1 = withDefault 100 l2
     /\ withDefault 0 o1 = withDefault 0 o2 /\ sentStatus s1 = sentStatus s2)
  /\ (getEndpoint c1 = getEndpoint c2 -> c1 = c2)
  /\ (uploadEndpoint c1 = uploadEndpoint c2 -> c1 = c2)
  /\ (caseEndpoint c1 = caseEndpoint c2 -> c1 = c2).
Proof.
  split; [| repeat split; intro H; apply show_int_inj;
            exact (append_inv_head _ _ _ H)].
  intro H.
  pose proof (f_equal query_params H) as Q.
  rewrite !query_params_listEndpoint in Q. unfold baseParams in Q. simpl in Q.
  injection Q as C L O _.
  apply show_int_inj in C. apply show_int_inj in L. apply show_int_inj in O.
  repeat split; try assumption.
  rewrite !listEndpoint_shape in H. rewrite C, L, O in H.
  apply append_inv_head in H.
  assert (forall st, sentStatus s1 = Some st \/ sentStatus s2 = Some st -> st <> ""%string)
    as NonEmpty.
  { intros st [E | E]; unfold sentStatus in E;
      [destruct (Js.truthy s1) eqn:T | destruct (Js.truthy s2) eqn:T];
      try discriminate E; subst; apply Js.truthy_true in T;
      destruct T as [x [X N]]; inversion X; subst; exact N. }
  destruct (sentStatus s1) as [a |], (sentStatus s2) as [b |];
    try reflexivity; try discriminate H.
  apply (append_inv_head "&status=") in H. subst. reflexivity.
Qed.



End EndpointProperties.

Section FileSizeNumerals.
Import DocumentQueue.

Lemma tenths_nearest (num den : Z) :
  0 < den ->
  let n := (20 * num + den) / (2 * den) in
  - den <= 20 * num - 2 * den * n < den.
Proof.
  intros D n.
  pose proof (Z.div_mod (20 * num + den) (2 * den)) as E.
  pose proof (Z.mod_pos_bound (20 * num + den) (2 * den)) as B.
  fold n in E. lia.
Qed.

(** X10: for a byte count that is a safe integer (from 0 to 2^53 - 1, where
    the quotients are exact and below the range in which [toFixed] switches to
    the exponential form): below 1024 bytes the size is shown as the byte
    count itself; from 1024 on it is shown with one decimal, the tenth nearest
    to the count divided by 1024 (by 1048576 from 1048576 on), so never below
    1.0; and the last 51 counts below 1048576 are shown as 1024.0 KB. *)
Theorem formatFileSize_numeral (bytes : Z) :
  (0 <= bytes < 1024 -> formatFileSize bytes = (Js.show_int bytes ++ " B")%string)
  /\ (1024 <= bytes < 1048576 ->
        exists n, 10 <= n <= 10240
                  /\ - 1024 <= 20 * bytes - 2048 * n < 1024
                  /\ formatFileSize bytes
                     = (Js.show_int (n / 10) ++ "." ++ Js.show_int (n mod 10) ++ " KB")%string)
  /\ (1048576 <= bytes <= 9007199254740991 ->
        exists n, 10 <= n <= 85899345920
                  /\ - 1048576 <= 20 * bytes - 2097152 * n < 1048576
                  /\ formatFileSize bytes
                     = (Js.show_int (n / 10) ++ "." ++ Js.show_int (n mod 10) ++ " MB")%string)
  /\ (1048525 <= bytes < 1048576 -> formatFileSize bytes = "1024.0 KB"%string).
Proof.
  split; [| split; [| split]].
  - intros [_ L]. unfold formatFileSize. change (1024 * 1024) with 1048576. apply Z.ltb_lt in L. rewrite L. reflexivity.
  - intros [Lo Hi]. unfold formatFileSize. change (1024 * 1024) with 1048576.
    apply Z.ltb_ge in Lo. rewrite Lo. apply Z.ltb_lt in Hi. rewrite Hi.
    apply Z.ltb_ge in Lo. apply Z.ltb_lt in Hi.
    exists ((20 * bytes + 1024) / (2 * 1024)).
    pose proof (tenths_nearest bytes 1024 eq_refl) as N. cbv zeta in N.
    split; [| split].
    + lia.
    + lia.
    + unfold toFixed1. rewrite !Text.append_assoc. reflexivity.
  - intros [Lo Safe]. unfold formatFileSize. change (1024 * 1024) with 1048576.
    assert ((bytes <? 1024) = false) as A by (apply Z.ltb_ge; lia).
    assert ((bytes <? 1048576) = false) as B by (apply Z.ltb_ge; lia).
    rewrite A, B.
    exists ((20 * bytes + 1048576) / (2 * 1048576)).
    pose proof (tenths_nearest bytes 1048576 eq_refl) as N. cbv zeta in N.
    split; [| split].
    + lia.
    + lia.
    + unfold toFixed1. rewrite !Text.append_assoc. reflexivity.
  - intros [Lo Hi]. unfold formatFileSize. change (1024 * 1024) with 1048576.
    assert ((bytes <? 1024) = false) as A by (apply Z.ltb_ge; lia).
    assert ((bytes <? 1048576) = true) as B by (apply Z.ltb_lt; lia).
    rewrite A, B. unfold toFixed1.
    assert ((20 * bytes + 1024) / (2 * 1024) = 10240) as N.
    { symmetry. apply (Z.div_unique _ _ _ (20 * bytes + 1024 - 20971520)); lia. }
    rewrite N. reflexivity.
Qed.

End FileSizeNumerals.

(** ** lib/theme.ts: the class-name builder *)

Module Theme.

(** An argument of [cn]: a class string, a boolean, [undefined] or [null]. *)
Inductive ClassArg : Type :=
| ClassName (s : string)
| Flag (b : bool)
| Undefined
| Null.

(** [Boolean(arg)], the callback of [filter]. *)
Definition kept (a : ClassArg) : bool :=
  match a with
  | ClassName s => Js.truthy_string s
  | Flag b => b
  | Undefined | Null => false
  end.

(** The text [join] gives an element. *)
Definition classText (a : ClassArg) : string :=
  match a with
  | ClassName s => s
  | Flag true => "true"
  | Flag false => "false"
  | Undefined | Null => EmptyString
  end.

Definition cn (classes : list ClassArg) : string :=
  Api.join " " (map classText (filter kept classes)).

Lemma join_cons (sep p : string) (rest : list string) :
  rest <> [] -> Api.join sep (p :: rest) = (p ++ sep ++ Api.join sep rest)%string.
Proof.
  destruct rest; [congruence | reflexivity].
Qed.

Lemma join_app (sep : string) (a b : list string) :
  a <> [] -> b <> [] ->
  Api.join sep (a ++ b) = (Api.join sep a ++ sep ++ Api.join sep b)%string.
Proof.
  intros A B. induction a as [| p r IH]; [congruence |].
  destruct r as [| q r'].
  - simpl app. rewrite join_cons by exact B. reflexivity.
  - change ((p :: q :: r') ++ b) with (p :: ((q :: r') ++ b)).
    rewrite join_cons by discriminate.
    rewrite IH by discriminate.
    rewrite (join_cons sep p (q :: r')) by discriminate.
    rewrite !Text.append_assoc. reflexivity.
Qed.

Lemma kept_text_nonempty (a : ClassArg) : kept a = true -> classText a <> ""%string.
Proof.
  destruct a as [s | [|] | |]; simpl; try discriminate.
  apply Js.truthy_string_true.
Qed.

Lemma join_nonempty (sep p : string) (rest : list string) :
  p <> ""%string -> Api.join sep (p :: rest) <> ""%string.
Proof.
  intro N. destruct rest; simpl; [exact N |].
  destruct p; [congruence | discriminate].
Qed.

End Theme.

Section ClassNames.
Import Text Theme.

(** X11: [cn] ignores every falsy argument (empty string, false, undefined,
    null) wherever it stands; its result is empty exactly when no argument is
    kept; and the result for two argument lists put together is the two
    results joined by one space when each list keeps something. *)
Theorem cn_skips_falsy (before after : list ClassArg) (x : ClassArg) :
  (kept x = false -> cn (before ++ x :: after) = cn (before ++ after))
  /\ (cn before = ""%string <-> filter kept before = [])
  /\ (filter kept before <> [] -> filter kept after <> [] ->
        cn (before ++ after) = (cn before ++ " " ++ cn after)%string).
Proof.
  split; [| split].
  - intro F. unfold cn. rewrite !filter_app. simpl. rewrite F. reflexivity.
  - unfold cn. split.
    + intro E. destruct (filter kept before) as [| a l] eqn:K; [reflexivity |].
      exfalso. simpl map in E. revert E. apply join_nonempty.
      apply kept_text_nonempty.
      assert (In a (filter kept before)) as I by (rewrite K; left; reflexivity).
      apply filter_In in I. apply I.
    + intros ->. reflexivity.
  - intros A B. unfold cn. rewrite filter_app, map_app.
    apply join_app; intro E; apply map_eq_nil in E; contradiction.
Qed.

Lemma split_join (parts : list string) :
  parts <> [] ->
  split_on " " (Api.join " " parts) = flat_map (split_on " ") parts.
Proof.
  induction parts as [| p r IH]; [congruence |]. intros _.
  destruct r as [| q r'].
  - simpl. rewrite app_nil_r. reflexivity.
  - rewrite Theme.join_cons by discriminate.
    change (p ++ " " ++ Api.join " " (q :: r'))%string
      with (p ++ String " " (Api.join " " (q :: r')))%string.
    rewrite split_on_separator. rewrite IH by discriminate. reflexivity.
Qed.

(** X12: the class names in the text [cn] builds are exactly the class
    names of the kept arguments, in order: splitting the text at spaces gives
    what splitting each kept argument gives, so [cn] adds no empty name of its
    own, and a literal [true] argument contributes the class name "true". *)
Theorem cn_tokens (classes : list ClassArg) :
  split_on " " (cn classes)
  = match filter kept classes with
    | [] => [""%string]
    | keptArgs => flat_map (split_on " ") (map classText keptArgs)
    end
  /\ (In (Flag true) classes -> In "true"%string (split_on " " (cn classes))).
Proof.
  assert (split_on " " (cn classes)
          = match filter kept classes with
            | [] => [""%string]
            | keptArgs => flat_map (split_on " ") (map classText keptArgs)
            end) as E.
  { unfold cn. destruct (filter kept classes) as [| a l] eqn:K; [reflexivity |].
    apply split_join. discriminate. }
  split; [exact E |].
  intro I. rewrite E.
  assert (In (Flag true) (filter kept classes)) as K
    by (apply filter_In; split; [exact I | reflexivity]).
  destruct (filter kept classes) as [| a l]; [contradiction |].
  apply in_flat_map. exists "true"%string. split.
  - apply in_map_iff. exists (Flag true). split; [reflexivity | exact K].
  - left. reflexivity.
Qed.

Example cn_conditional :
  cn [ClassName "px-3 py-2"; Flag false; ClassName "rounded-lg"; Null]
  = "px-3 py-2 rounded-lg"%string.
Proof. reflexivity. Qed.

End ClassNames.

(** ** middleware.ts and lib/auth.config.ts: the route guards *)

Module Guards.

(** The session as the guards read it: whether it carries a user. *)
Record Session : Type := {
  session_user : option string
}.

Inductive MiddlewareResult : Type :=
| Next
| RedirectTo (path : string).

(** [pathname.startsWith(p)] *)
Definition startsWith (p pathname : string) : bool := String.prefix p pathname.

(** [middleware]: [session] is what [auth()] resolved to, [None] for
    [null]; a redirect goes to the given path on the request's origin. *)
Definition middleware (session : option Session) (pathname : string) : MiddlewareResult :=
  if startsWith "/api/" pathname then Next
  else if startsWith "/dashboard" pathname || startsWith "/cases" pathname then
    match session with
    | None => RedirectTo "/login"
    | Some _ => Next
    end
  else Next.

Inductive Authorized : Type :=
| Allow
| Deny
| RedirectToDashboard.

(** [!!auth?.user] *)
Definition isLoggedIn (auth : option Session) : bool :=
  match auth with
  | Some s => match session_user s with Some _ => true | None => false end
  | None => false
  end.

(** The [authorized] callback of [authConfig]. *)
Definition authorized (auth : option Session) (pathname : string) : Authorized :=
  let isOnDashboard := startsWith "/dashboard" pathname in
  let isOnCases := startsWith "/cases" pathname in
  if isOnDashboard || isOnCases then
    (if isLoggedIn auth then Allow else Deny)
  else if isLoggedIn auth && String.eqb pathname "/login" then RedirectToDashboard
  else Allow.

Lemma startsWith_iff (p pathname : string) :
  startsWith p pathname = true <-> exists rest, pathname = (p ++ rest)%string.
Proof.
  unfold startsWith. revert pathname.
  induction p as [| a p' IH]; intro pathname; simpl.
  - split; [intros _; exists pathname; reflexivity |].
    intros _. destruct pathname; reflexivity.
  - destruct pathname as [| b r]; simpl.
    + split; [discriminate | intros [rest E]; discriminate E].
    + destruct (ascii_dec a b) as [-> | N].
      * rewrite IH. split; intros [rest E]; exists rest; [rewrite E | inversion E];
          reflexivity.
      * split; [discriminate |]. intros [rest E]. inversion E. congruence.
Qed.

Lemma api_is_not_protected (pathname : string) :
  startsWith "/api/" pathname = true ->
  startsWith "/dashboard" pathname = false /\ startsWith "/cases" pathname = false.
Proof.
  intro A. apply startsWith_iff in A. destruct A as [rest ->].
  split; reflexivity.
Qed.

End Guards.

Section GuardProperties.
Import Guards.

(** X13: the middleware redirects, and then to /login, exactly the requests
    without a session whose path starts with /dashboard or /cases; a request
    with a session is never redirected, nor is any path under /api/ or
    starting with /documents, with or without a session. *)
Theorem middleware_redirects (session : option Session) (pathname rest : string) :
  (middleware session pathname = RedirectTo "/login" <->
     session = None
     /\ (startsWith "/dashboard" pathname = true \/ startsWith "/cases" pathname = true))
  /\ (forall target, middleware session pathname = RedirectTo target ->
                     target = "/login"%string)
  /\ (session <> None -> middleware session pathname = Next)
  /\ middleware session ("/api/" ++ rest) = Next
  /\ middleware session ("/documents" ++ rest) = Next.
Proof.
  split; [| split; [| split; [| split]]].
  - unfold middleware. destruct (startsWith "/api/" pathname) eqn:A.
    + destruct (api_is_not_protected _ A) as [D C]. rewrite D, C.
      split; [discriminate | intros [_ [H | H]]; discriminate H].
    + destruct (startsWith "/dashboard" pathname), (startsWith "/cases" pathname),
        session; simpl; split; try discriminate; auto;
        intros [E [H | H]]; discriminate.
  - intros target. unfold middleware.
    destruct (startsWith "/api/" pathname); [discriminate |].
    destruct (startsWith "/dashboard" pathname || startsWith "/cases" pathname);
      [| discriminate].
    destruct session; [discriminate |]. intro H. inversion H. reflexivity.
  - intro S. unfold middleware. destruct session; [| congruence].
    destruct (startsWith "/api/" pathname); [reflexivity |].
    destruct (startsWith "/dashboard" pathname || startsWith "/cases" pathname);
      reflexivity.
  - unfold middleware.
    assert (startsWith "/api/" ("/api/" ++ rest) = true) as A
      by (apply startsWith_iff; exists rest; reflexivity).
    rewrite A. reflexivity.
  - reflexivity.
Qed.

(** X14: the two guards agree for a visitor without a session and for a
    signed-in user: the middleware sends to /login exactly the requests the
    [authorized] callback denies, and neither stops a signed-in user; they
    differ on a session that carries no user, which the middleware lets into
    /dashboard and /cases and the callback denies. *)
Theorem guards_agree (user pathname : string) :
  (middleware None pathname = RedirectTo "/login" <-> authorized None pathname = Deny)
  /\ middleware (Some {| session_user := Some user |}) pathname = Next
  /\ authorized (Some {| session_user := Some user |}) pathname <> Deny
  /\ (authorized (Some {| session_user := Some user |}) pathname = RedirectToDashboard <->
        pathname = "/login"%string)
  /\ (startsWith "/dashboard" pathname = true \/ startsWith "/cases" pathname = true ->
        middleware (Some {| session_user := None |}) pathname = Next
        /\ authorized (Some {| session_user := None |}) pathname = Deny).
Proof.
  split; [| split; [| split; [| split]]].
  - unfold middleware, authorized. simpl.
    destruct (startsWith "/api/" pathname) eqn:A.
    + destruct (api_is_not_protected _ A) as [D C]. rewrite D, C. simpl.
      split; discriminate.
    + destruct (startsWith "/dashboard" pathname || startsWith "/cases" pathname);
        split; try discriminate; reflexivity.
  - unfold middleware. destruct (startsWith "/api/" pathname); [reflexivity |].
    destruct (startsWith "/dashboard" pathname || startsWith "/cases" pathname);
      reflexivity.
  - unfold authorized. simpl.
    destruct (startsWith "/dashboard" pathname || startsWith "/cases" pathname);
      [discriminate |].
    destruct (String.eqb pathname "/login"); discriminate.
  - unfold authorized. simpl. split.
    + destruct (startsWith "/dashboard" pathname || startsWith "/cases" pathname);
        [discriminate |].
      destruct (String.eqb pathname "/login") eqn:E; [| discriminate].
      intros _. apply String.eqb_eq. exact E.
    + intros ->. reflexivity.
  - intro P. unfold middleware, authorized. simpl.
    assert (startsWith "/dashboard" pathname || startsWith "/cases" pathname = true) as O
      by (apply orb_true_iff; exact P).
    rewrite O. split; [| reflexivity].
    destruct (startsWith "/api/" pathname); reflexivity.
Qed.

End GuardProperties.

(** ** lib/auth.ts: how the NextAuth options are put together *)

Module AuthSetup.

(** An object literal: its entries in source order; a spread copies the own
    properties of its object, in their order. *)
Inductive Entry (V : Type) : Type :=
| Field (key : string) (value : V)
| Spread (object : list (string * V)).

Arguments Field {V} key value.
Arguments Spread {V} object.

Section Objects.
Variable V : Type.

(** Setting a property: an existing key keeps its place and takes the new
    value, a new key goes last. *)
Fixpoint assign (key : string) (value : V) (object : list (string * V))
  : list (string * V) :=
  match object with
  | [] => [(key, value)]
  | (k, v) :: rest =>
      if String.eqb k key then (k, value) :: rest
      else (k, v) :: assign key value rest
  end.

Fixpoint property (key : string) (object : list (string * V)) : option V :=
  match object with
  | [] => None
  | (k, v) :: rest => if String.eqb k key then Some v else property key rest
  end.

Definition copyInto (acc object : list (string * V)) : list (string * V) :=
  fold_left (fun a kv => assign (fst kv) (snd kv) a) object acc.

Definition addEntry (acc : list (string * V)) (e : Entry V) : list (string * V) :=
  match e with
  | Field k v => assign k v acc
  | Spread object => copyInto acc object
  end.

Definition objectLiteral (entries : list (Entry V)) : list (string * V) :=
  fold_left addEntry entries [].

Lemma property_assign (key k : string) (value : V) (object : list (string * V)) :
  property k (assign key value object)
  = if String.eqb key k then Some value else property k object.
Proof.
  induction object as [| [k' v'] rest IH]; simpl.
  - destruct (String.eqb key k); reflexivity.
  - destruct (String.eqb k' key) eqn:E; simpl.
    + apply String.eqb_eq in E. subst k'.
      destruct (String.eqb key k); reflexivity.
    + destruct (String.eqb k' k) eqn:E2; [| exact IH].
      apply String.eqb_eq in E2. subst k'.
      rewrite String.eqb_sym, E. reflexivity.
Qed.

(** The value the last member with the key has, if any. *)
Fixpoint lastValue (key : string) (object : list (string * V)) : option V :=
  match object with
  | [] => None
  | (k, v) :: rest =>
      match lastValue key rest with
      | Some later => Some later
      | None => if String.eqb k key then Some v else None
      end
  end.

(** A key of the copied object takes its value, whatever the target gave
    it; any other key keeps the target's value. *)
Lemma property_copyInto (k : string) (object : list (string * V)) :
  forall acc,
    property k (copyInto acc object)
    = match lastValue k object with
      | Some v => Some v
      | None => property k acc
      end.
Proof.
  unfold copyInto.
  induction object as [| [k' v'] rest IH]; intro acc; [reflexivity |].
  simpl. rewrite IH, property_assign.
  destruct (lastValue k rest); [reflexivity |].
  destruct (String.eqb k' k); reflexivity.
Qed.

Lemma objectLiteral_spread_last (entries : list (Entry V)) (object : list (string * V)) :
  objectLiteral (entries ++ [Spread object]) = copyInto (objectLiteral entries) object.
Proof.
  unfold objectLiteral. rewrite fold_left_app. reflexivity.
Qed.

End Objects.

Arguments assign {V} key value object.
Arguments property {V} key object.
Arguments copyInto {V} acc object.
Arguments objectLiteral {V} entries.
Arguments lastValue {V} key object.

(** The settings the options carry, as far as the literals show them. *)
Inductive Setting : Type :=
| SessionOptions (strategy : string) (maxAge : Z)
| JwtOptions (maxAge : Z)
| Pages (signIn : string)
| Providers (names : list string)
| Callbacks (names : list string).

(** [authConfig] of auth.config.ts. *)
Definition authConfig : list (string * Setting) :=
  objectLiteral
    [Field "providers" (Providers ["credentials"%string]);
     Field "callbacks" (Callbacks ["authorized"%string])].

(** The entries of the literal handed to [NextAuth] in auth.ts that come
    before the spread. *)
Definition ownEntries : list (Entry Setting) :=
  [Field "session" (SessionOptions "jwt" (60 * 60));
   Field "jwt" (JwtOptions (60 * 60));
   Field "pages" (Pages "/login");
   Field "callbacks" (Callbacks ["jwt"%string; "session"%string])].

(** The options [NextAuth] receives. *)
Definition nextAuthOptions : list (string * Setting) :=
  objectLiteral (ownEntries ++ [Spread authConfig]).

End AuthSetup.

Section AuthOptions.
Import AuthSetup.

(** X15: spreading [authConfig] last replaces the whole [callbacks] entry:
    whatever entries the literal has before the spread, the options' callbacks
    are those of [authConfig], the [authorized] callback alone, so the [jwt]
    and [session] callbacks written in auth.ts are not part of the options
    [NextAuth] receives, while the session, jwt and pages settings are. *)
Theorem spread_replaces_callbacks (entries : list (Entry Setting)) :
  property "callbacks" (objectLiteral (entries ++ [Spread authConfig]))
  = Some (Callbacks ["authorized"%string])
  /\ property "providers" (objectLiteral (entries ++ [Spread authConfig]))
     = Some (Providers ["credentials"%string])
  /\ property "callbacks" nextAuthOptions = Some (Callbacks ["authorized"%string])
  /\ property "callbacks" (objectLiteral ownEntries)
     = Some (Callbacks ["jwt"%string; "session"%string])
  /\ property "session" nextAuthOptions = Some (SessionOptions "jwt" 3600)
  /\ property "jwt" nextAuthOptions = Some (JwtOptions 3600)
  /\ property "pages" nextAuthOptions = Some (Pages "/login")
  /\ map fst nextAuthOptions
     = ["session"; "jwt"; "pages"; "callbacks"; "providers"]%string.
Proof.
  assert (forall own,
            property "callbacks" (objectLiteral (own ++ [Spread authConfig]))
            = Some (Callbacks ["authorized"%string])) as C.
  { intro own. rewrite objectLiteral_spread_last, property_copyInto. reflexivity. }
  split; [apply C |]. split.
  - rewrite objectLiteral_spread_last, property_copyInto. reflexivity.
  - split; [apply C |]. repeat split.
Qed.

End AuthOptions.

(** ** Signing in: the [authorize] functions and the token callbacks *)

Module Login.
Import Api.

Fixpoint sequence {A : Type} (l : list (option A)) : option (list A) :=
  match l with
  | [] => Some []
  | None :: _ => None
  | Some x :: rest =>
      match sequence rest with
      | Some xs => Some (x :: xs)
      | None => None
      end
  end.

(** [value.toString()] for a parsed value: [None] when the call throws, as
    it does for [null] and for an object whose own [toString] member hides the
    inherited method; an array joins the texts of its elements, [null]
    elements giving the empty text. *)
Fixpoint stringOf (v : Json) : option string :=
  match v with
  | JNull => None
  | JBool true => Some "true"%string
  | JBool false => Some "false"%string
  | JNum n => Some (Js.show_int n)
  | JStr s => Some s
  | JArr items =>
      option_map (join ",")
        (sequence (map (fun i => match i with
                                 | JNull => Some EmptyString
                                 | _ => stringOf i
                                 end) items))
  | JObj members =>
      match lookup "toString" members with
      | Some _ => None
      | None => Some "[object Object]"%string
      end
  end.

Record Credentials : Type := {
  email : option string;
  password : option string
}.

(** The user object [authorize] returns. *)
Record AuthUser : Type := {
  user_id : string;
  user_email : option Json;
  user_name : option Json;
  user_role : option Json
}.

(** [!credentials?.email || !credentials?.password] negated. *)
Definition hasCredentials (credentials : option Credentials) : bool :=
  match credentials with
  | Some c => Js.truthy (email c) && Js.truthy (password c)
  | None => false
  end.

(** The object literal built from the parsed body; [None] when building it
    throws, which the surrounding [catch] turns into [null]. *)
Definition userOf (parsed : Json) : option AuthUser :=
  match parsed with
  | JNull => None
  | _ =>
      match property parsed "id" with
      | Some idValue =>
          match stringOf idValue with
          | Some text =>
              Some {| user_id := text;
                      user_email := property parsed "email";
                      user_name := property parsed "name";
                      user_role := property parsed "role" |}
          | None => None
          end
      | None => None
      end
  end.

(** [authorize] of auth.config.ts.  [fetched] is the response of the login
    request, [None] when [fetch] rejects. *)
Definition authorize (credentials : option Credentials) (fetched : option Response)
  : option AuthUser :=
  if negb (hasCredentials credentials) then None
  else match fetched with
       | None => None
       | Some response =>
           if negb (ok response) then None
           else match body response with
                | None => None
                | Some parsed => userOf parsed
                end
       end.

(** [authorize] of app/api/auth/[...nextauth]/route.ts. *)
Definition routeAuthorize (credentials : option Credentials) (fetched : option Response)
  : option AuthUser :=
  if negb (hasCredentials credentials) then None
  else match fetched with
       | None => None
       | Some res =>
           if negb (ok res) then None
           else match body res with
                | None => None
                | Some user => if truthy user then userOf user else None
                end
       end.

(** The token and the session, as far as the callbacks of route.ts touch
    them. *)
Record Token : Type := {
  token_id : option string;
  token_role : option Json
}.

Record SessionUser : Type := {
  su_name : option Json;
  su_email : option Json;
  su_id : option string;
  su_role : option Json
}.

Record AuthSession : Type := {
  auth_user : option SessionUser;
  expires : string
}.

(** The [jwt] callback: [user] is present on sign-in only. *)
Definition jwt (token : Token) (user : option AuthUser) : Token :=
  match user with
  | Some u => {| token_id := Some (user_id u); token_role := user_role u |}
  | None => token
  end.

(** The [session] callback. *)
Definition session (s : AuthSession) (token : Token) : AuthSession :=
  match auth_user s with
  | Some u =>
      {| auth_user := Some {| su_name := su_name u; su_email := su_email u;
                              su_id := token_id token; su_role := token_role token |};
         expires := expires s |}
  | None => s
  end.

(** [n] later calls of the [jwt] callback, none of them a sign-in. *)
Definition refreshed (n : nat) (token : Token) : Token :=
  Nat.iter n (fun t => jwt t None) token.

End Login.

Section LoginProperties.
Import Api Login.

(** X16: [authorize] returns a user exactly when both credentials are
    non-empty, the login request is answered with an ok response, and its body
    parses to an object with an [id] member whose [toString()] succeeds; the
    user's id is then that text and its email, name and role are the body's
    members; in every other case, a rejected request included, it returns
    null. *)
Theorem authorize_returns_user (credentials : option Credentials)
    (fetched : option Response) (user : AuthUser) :
  authorize credentials fetched = Some user <->
  exists c response members idValue,
    credentials = Some c
    /\ Js.truthy (email c) = true /\ Js.truthy (password c) = true
    /\ fetched = Some response /\ ok response = true
    /\ body response = Some (JObj members)
    /\ lookup "id" members = Some idValue
    /\ stringOf idValue = Some (user_id user)
    /\ user_email user = lookup "email" members
    /\ user_name user = lookup "name" members
    /\ user_role user = lookup "role" members.
Proof.
  unfold authorize, hasCredentials. split.
  - destruct credentials as [c |]; [| discriminate].
    destruct (Js.truthy (email c)) eqn:E; [| discriminate].
    destruct (Js.truthy (password c)) eqn:P; [| discriminate].
    destruct fetched as [response |]; [| discriminate]. simpl.
    destruct (ok response) eqn:O; [| discriminate]. simpl.
    destruct (body response) as [parsed |] eqn:B; [| discriminate].
    destruct parsed as [| b | n | s | items | members]; try discriminate.
    unfold userOf. simpl.
    destruct (lookup "id" members) as [idValue |] eqn:I; [| discriminate].
    destruct (stringOf idValue) as [text |] eqn:T; [| discriminate].
    intro H. inversion H; subst. simpl.
    exists c, response, members, idValue. repeat split; assumption.
  - intros [c [response [members [idValue
      [-> [E [P [-> [O [B [I [T [Em [Nm Rl]]]]]]]]]]]]]].
    rewrite E, P, O, B. simpl. unfold userOf. simpl. rewrite I, T.
    destruct user; simpl in *. subst. reflexivity.
Qed.

(** X17: the two [authorize] functions, of auth.config.ts and of the
    NextAuth route, return the same for every credentials and every outcome of
    the login request. *)
Theorem authorize_variants_agree (credentials : option Credentials)
    (fetched : option Response) :
  routeAuthorize credentials fetched = authorize credentials fetched.
Proof.
  unfold routeAuthorize, authorize.
  destruct (negb (hasCredentials credentials)); [reflexivity |].
  destruct fetched as [response |]; [| reflexivity].
  destruct (negb (ok response)); [reflexivity |].
  destruct (body response) as [[| b | n | s | items | members] |]; try reflexivity.
  - destruct b; reflexivity.
  - simpl. destruct (negb (n =? 0)); reflexivity.
  - simpl. destruct (Js.truthy_string s); reflexivity.
Qed.

(** X18: what the [jwt] callback stores at sign-in reaches the session: for
    a session with a user, the session callback gives it the id and the role of
    the user who signed in, also after any number of later calls of the [jwt]
    callback, and leaves the name and the email as they are; a session without
    a user is returned unchanged. *)
Theorem session_carries_sign_in (n : nat) (token : Token) (user : AuthUser)
    (s : AuthSession) (u : SessionUser) :
  refreshed n (jwt token (Some user))
  = {| token_id := Some (user_id user); token_role := user_role user |}
  /\ (auth_user s = Some u ->
        auth_user (session s (refreshed n (jwt token (Some user))))
        = Some {| su_name := su_name u; su_email := su_email u;
                  su_id := Some (user_id user); su_role := user_role user |})
  /\ (auth_user s = None -> session s (refreshed n (jwt token (Some user))) = s).
Proof.
  assert (refreshed n (jwt token (Some user))
          = {| token_id := Some (user_id user); token_role := user_role user |}) as R.
  { unfold refreshed. induction n as [| k IH]; [reflexivity |].
    rewrite Nat.iter_succ, IH. reflexivity. }
  split; [exact R |]. rewrite R. unfold session. split.
  - intros ->. reflexivity.
  - intros ->. reflexivity.
Qed.

End LoginProperties.

(** ** The case form and the case list *)

Module Cases.

(** types/case.ts *)
Record Case : Type := {
  id : Z;
  name : string;
  description : option string;
  created_at : string;
  updated_at : string
}.

Record CaseCreateRequest : Type := {
  req_name : string;
  req_description : option string
}.

(** The values of the form of CaseModal.tsx; the description field is
    optional in the schema. *)
Record CaseFormData : Type := {
  form_name : string;
  form_description : option string
}.

(** [value || ''] for a [string | null] value. *)
Definition orEmpty (v : option string) : string :=
  match v with
  | Some s => if Js.truthy_string s then s else EmptyString
  | None => EmptyString
  end.

(** [value || null] for an optional string. *)
Definition orNull (v : option string) : option string :=
  if Js.truthy v then v else None.

(** The values the form is reset to when the modal opens. *)
Definition defaultValues (editCase : option Case) : CaseFormData :=
  match editCase with
  | Some c => {| form_name := name c; form_description := Some (orEmpty (description c)) |}
  | None => {| form_name := EmptyString; form_description := Some EmptyString |}
  end.

(** [caseSchema]: the name has from 1 to 255 characters. *)
Definition valid (data : CaseFormData) : bool :=
  (1 <=? String.length (form_name data))%nat
  && (String.length (form_name data) <=? 255)%nat.

Definition handleFormSubmit (data : CaseFormData) : CaseCreateRequest :=
  {| req_name := form_name data; req_description := orNull (form_description data) |}.

(** Submitting the form: the handler runs only on values the schema
    accepts. *)
Definition submit (data : CaseFormData) : option CaseCreateRequest :=
  if valid data then Some (handleFormSubmit data) else None.

(** The list of cases of the cases page after [handleCreateCase]:
    [created] is the case the API returned, [None] when the call threw. *)
Definition handleCreateCase (cases : list Case) (created : option Case) : list Case :=
  match created with
  | Some newCase => newCase :: cases
  | None => cases
  end.

(** After [handleUpdateCase]: nothing happens without a case being edited. *)
Definition handleUpdateCase (cases : list Case) (editingCase : option Case)
    (updated : option Case) : list Case :=
  match editingCase with
  | None => cases
  | Some _ =>
      match updated with
      | Some updatedCase =>
          map (fun c => if id c =? id updatedCase then updatedCase else c) cases
      | None => cases
      end
  end.

(** Whether [handleDeleteCase] sends the delete request: the case is in the
    list and the user confirms. *)
Definition deleteRequested (cases : list Case) (caseId : Z) (confirmed : bool) : bool :=
  match find (fun c => id c =? caseId) cases with
  | Some _ => confirmed
  | None => false
  end.

(** After [handleDeleteCase]: [deleted] says whether the request, if sent,
    succeeded. *)
Definition handleDeleteCase (cases : list Case) (caseId : Z) (confirmed deleted : bool)
  : list Case :=
  if deleteRequested cases caseId confirmed && deleted
  then filter (fun c => negb (id c =? caseId)) cases
  else cases.

End Cases.

Section CaseProperties.
Import Cases.

(** X19: a case request that leaves the form has a name of 1 to 255
    characters and a description that is null or non-empty, never the empty
    string; saving the edit form of a case unchanged sends the case's name and
    its description, an empty description as null; and the untouched create
    form is not submitted. *)
Theorem case_form_round_trip (data : CaseFormData) (c : Case) (request : CaseCreateRequest) :
  (submit data = Some request ->
     (1 <= String.length (req_name request) <= 255)%nat
     /\ req_description request <> Some ""%string)
  /\ ((1 <= String.length (name c) <= 255)%nat ->
        submit (defaultValues (Some c))
        = Some {| req_name := name c;
                  req_description := match description c with
                                     | Some ""%string => None
                                     | d => d
                                     end |})
  /\ submit (defaultValues None) = None.
Proof.
  split; [| split].
  - unfold submit, valid. destruct (_ && _) eqn:V; [| discriminate].
    intro H. inversion H; subst. simpl.
    apply andb_true_iff in V. destruct V as [Lo Hi].
    apply Nat.leb_le in Lo. apply Nat.leb_le in Hi.
    split; [lia |]. unfold orNull.
    destruct (form_description data) as [[| ch r] |]; simpl; discriminate.
  - intros [Lo Hi]. unfold submit, valid, defaultValues. cbn [form_name].
    apply Nat.leb_le in Lo. apply Nat.leb_le in Hi. rewrite Lo, Hi.
    unfold handleFormSubmit, orNull, orEmpty. cbn [form_name form_description andb].
    destruct (description c) as [[| ch r] |]; reflexivity.
  - reflexivity.
Qed.

Lemma case_form_round_trip_witness :
  submit {| form_name := "Smith v. Jones"; form_description := Some ""%string |}
  = Some {| req_name := "Smith v. Jones"; req_description := None |}
  /\ (1 <= String.length "Smith v. Jones" <= 255)%nat.
Proof.
  split; [reflexivity |].
  apply (case_form_round_trip
           {| form_name := "Smith v. Jones"; form_description := Some ""%string |}
           {| id := 1; name := "Smith v. Jones"; description := None;
              created_at := ""; updated_at := "" |}
           {| req_name := "Smith v. Jones"; req_description := None |}).
  reflexivity.
Defined.

(** X20: updating a case keeps the list's length and the identifiers in
    their order; every case with the identifier of the returned case becomes
    the returned case and every other case stays as it is, so a returned case
    whose identifier is not in the list changes nothing. *)
Theorem update_keeps_order (cases : list Case) (editing updated : Case) :
  let after := handleUpdateCase cases (Some editing) (Some updated) in
  map id after = map id cases
  /\ List.length after = List.length cases
  /\ (forall c, In c after -> c = updated \/ (In c cases /\ id c <> id updated))
  /\ (forall c, In c cases -> id c <> id updated -> In c after)
  /\ ((forall c, In c cases -> id c <> id updated) -> after = cases).
Proof.
  cbv zeta. unfold handleUpdateCase.
  split; [| split; [| split; [| split]]].
  - rewrite map_map. apply map_ext_in. intros c _.
    destruct (id c =? id updated) eqn:E; [| reflexivity].
    apply Z.eqb_eq in E. symmetry. exact E.
  - apply length_map.
  - intros c I. apply in_map_iff in I. destruct I as [x [E I]].
    destruct (id x =? id updated) eqn:X; subst; [left; reflexivity | right].
    apply Z.eqb_neq in X. split; assumption.
  - intros c I N. apply in_map_iff. exists c. split; [| exact I].
    apply Z.eqb_neq in N. rewrite N. reflexivity.
  - intro N. rewrite <- (map_id cases) at 2. apply map_ext_in. intros c I.
    specialize (N c I). apply Z.eqb_neq in N. rewrite N. reflexivity.
Qed.

(** X21: a delete request is sent only for a case of the list that the user
    confirms; after a successful one no case with that identifier is left and
    the other cases remain, in their order (the result is the list with the
    cases of that identifier filtered out); without confirmation, for an
    unknown identifier or after a failed request the list is unchanged; and
    deleting a newly created case whose identifier no other case has gives the
    list back. *)
Theorem delete_removes_case (cases : list Case) (caseId : Z)
    (confirmed deleted : bool) (created : Case) :
  (deleteRequested cases caseId confirmed = true <->
     confirmed = true /\ exists c, In c cases /\ id c = caseId)
  /\ (forall c, In c (handleDeleteCase cases caseId true true) <->
                In c cases /\ id c <> caseId)
  /\ handleDeleteCase cases caseId true true
     = filter (fun c => negb (id c =? caseId)) cases
  /\ map id (handleDeleteCase cases caseId true true)
     = filter (fun i => negb (i =? caseId)) (map id cases)
  /\ (confirmed = false \/ deleted = false \/ (forall c, In c cases -> id c <> caseId) ->
        handleDeleteCase cases caseId confirmed deleted = cases)
  /\ ((forall c, In c cases -> id c <> id created) ->
        handleDeleteCase (handleCreateCase cases (Some created)) (id created) true true
        = cases).
Proof.
  assert (forall l, (forall c, In c l -> id c <> caseId) ->
                    find (fun c => id c =? caseId) l = None) as Unknown.
  { intros l N. destruct (find (fun c => id c =? caseId) l) as [c |] eqn:F;
      [| reflexivity].
    apply find_some in F. destruct F as [I E]. apply Z.eqb_eq in E.
    exfalso. exact (N c I E). }
  assert (forall l k, (forall c, In c l -> id c <> k) ->
                      filter (fun c => negb (id c =? k)) l = l) as Keep.
  { intros l k N. induction l as [| c r IH]; [reflexivity |].
    simpl. assert (id c <> k) as D by (apply N; left; reflexivity).
    apply Z.eqb_neq in D. rewrite D. simpl. f_equal.
    apply IH. intros x I. apply N. right. exact I. }
  assert (handleDeleteCase cases caseId true true
          = filter (fun c => negb (id c =? caseId)) cases) as Filtered.
  { unfold handleDeleteCase, deleteRequested.
    destruct (find (fun x => id x =? caseId) cases) as [x |] eqn:F; [reflexivity |].
    simpl. symmetry. apply Keep. intros c I.
    apply (find_none _ _ F) in I. simpl in I. apply Z.eqb_neq. exact I. }
  split; [| split; [| split; [| split; [| split]]]].
  3:{ exact Filtered. }
  3:{ rewrite Filtered. clear. induction cases as [| c r IH]; [reflexivity |].
      simpl. destruct (id c =? caseId); simpl; rewrite IH; reflexivity. }
  - unfold deleteRequested. split.
    + destruct (find (fun c => id c =? caseId) cases) as [c |] eqn:F; [| discriminate].
      intros ->. split; [reflexivity |]. apply find_some in F.
      destruct F as [I E]. apply Z.eqb_eq in E. exists c. auto.
    + intros [-> [c [I E]]].
      destruct (find (fun x => id x =? caseId) cases) as [x |] eqn:F; [reflexivity |].
      exfalso. apply (find_none _ _ F) in I. simpl in I.
      apply Z.eqb_neq in I. contradiction.
  - intro c. unfold handleDeleteCase, deleteRequested.
    destruct (find (fun x => id x =? caseId) cases) as [x |] eqn:F; simpl.
    + rewrite filter_In, negb_true_iff, Z.eqb_neq. reflexivity.
    + split; [| tauto]. intro I. split; [exact I |].
      apply (find_none _ _ F) in I. simpl in I. apply Z.eqb_neq. exact I.
  - unfold handleDeleteCase, deleteRequested. intros [-> | [-> | N]].
    + destruct (find _ cases); reflexivity.
    + rewrite andb_false_r. reflexivity.
    + rewrite (Unknown cases N). reflexivity.
  - intro N. unfold handleCreateCase, handleDeleteCase, deleteRequested.
    simpl. rewrite Z.eqb_refl. simpl. apply Keep. exact N.
Qed.

End CaseProperties.

(** ** components/cases/DocumentUpload.tsx: the upload state *)

Module Upload.









End Upload.

Section UploadProperties.
Import Upload.


End UploadProperties.

(** ** A failed list request, from the response to the queue *)

Module QueueRequest.
Import DocumentTypes DocumentQueue QueueView Api.

(** The message of what [api.get] throws for a response, [None] when it
    resolves.  [typeError] and [parseError] stand for the texts the engine
    gives the [TypeError] of a failed conversion and the parser's error. *)
Definition thrownMessage (typeError parseError : string) (response : Response)
  : option string :=
  match handleResponse response with
  | Resolved _ => None
  | ThrownApiError e => Some (message e)
  | ThrownSyntaxError => Some parseError
  | ThrownTypeError => Some typeError
  end.

(** [loadDocuments] over a response for which [api.get] throws: the state
    after its [catch] and [finally] blocks.  It is [None] when [api.get]
    resolves; what [loadDocuments] does with a resolved body is not covered
    here. *)
Definition loadFromThrowingResponse (typeError parseError : string)
    (st : QueueState) (response : Response) : option QueueState :=
  match thrownMessage typeError parseError response with
  | Some m => Some (loadDocuments st (ListThrew (Some m)))
  | None => None
  end.

End QueueRequest.

Section QueueRequestProperties.
Import DocumentTypes DocumentQueue QueueView Api QueueRequest.

Lemma thrown_message_shown (st : QueueState) (m : string) :
  renderSections (loadDocuments st (ListThrew (Some m)))
  = [ErrorPanel (if Js.truthy_string m then m else "Failed to load documents"%string)]
  /\ st_documents (loadDocuments st (ListThrew (Some m))) = st_documents st.
Proof.
  split; [| reflexivity].
  unfold loadDocuments, loadFinish, loadStart, renderSections, noDocuments, someDocuments.
  simpl. destruct m as [| c r]; simpl; destruct (st_documents st); reflexivity.
Qed.

(** X23: when the list request is answered with a response that is not ok,
    [api.get] throws, and the queue keeps its documents and shows one section,
    the error panel.  Its text is the message of what was thrown: the message
    of the response (its detail, else its message, else the status line), or
    the text of the [TypeError] when that message has no conversion to a
    string; when that text is empty the panel shows "Failed to load
    documents". *)
Theorem failed_request_message (typeError parseError : string)
    (st : QueueState) (response : Response) :
  ok response = false ->
  let thrown := match statedMessage response with
                | Some text => text
                | None => typeError
                end in
  let shown := if Js.truthy_string thrown
               then thrown
               else "Failed to load documents"%string in
  exists after,
    loadFromThrowingResponse typeError parseError st response = Some after
    /\ renderSections after = [ErrorPanel shown]
    /\ shown <> ""%string
    /\ st_documents after = st_documents st.
Proof.
  intro N. cbv zeta. unfold loadFromThrowingResponse, thrownMessage.
  rewrite (rejected_response response N).
  set (thrown := match statedMessage response with
                 | Some text => text
                 | None => typeError
                 end).
  destruct (thrown_message_shown st thrown) as [Shown Kept].
  exists (loadDocuments st (ListThrew (Some thrown))).
  split; [| split; [exact Shown | split; [| exact Kept]]].
  - unfold thrown. destruct (statedMessage response); reflexivity.
  - destruct (Js.truthy_string thrown) eqn:T; [| discriminate].
    apply Js.truthy_string_true. exact T.
Qed.

Lemma failed_request_message_witness :
  exists after,
    loadFromThrowingResponse "x is not a function" "Unexpected token"
      {| st_documents := [sampleDocument COMPLETED None None]; isLoading := false;
         st_error := None; filterStatus := "all" |}
      {| ok := false; status := 404; statusText := "Not Found";
         body := Some (JObj [("detail"%string, JStr "Case not found")]) |}
    = Some after
    /\ renderSections after = [ErrorPanel "Case not found"]
    /\ "Case not found"%string <> ""%string
    /\ st_documents after = [sampleDocument COMPLETED None None].
Proof.
  apply (failed_request_message "x is not a function" "Unexpected token"
           {| st_documents := [sampleDocument COMPLETED None None]; isLoading := false;
              st_error := None; filterStatus := "all" |}
           {| ok := false; status := 404; statusText := "Not Found";
              body := Some (JObj [("detail"%string, JStr "Case not found")]) |}).
  reflexivity.
Defined.

End QueueRequestProperties.
